(** * mupen64plus-core (ModLoader64): the memory module

    A shallow embedding of [src/device/memory/memory.c]: the region dispatch
    table with its breakpoint overlay ([init_memory], [apply_mem_mapping],
    [map_region], [activate_memory_break_read] and friends, the
    [read_with_bp_checks]/[write_with_bp_checks] trampolines) and the flat
    base resolver ([init_mem_base], [release_mem_base], [mem_base_u32]).

    Conventions.  A C unsigned integer of width w is a [Z] whose wrap-around
    is written out with [uint8], [uint16], [uint32].  A pointer is a [Z]
    (0 is NULL).  The three 65536-entry arrays of [struct memory] are
    functions from the region index; a store to one entry is [upd]. *)

From Stdlib Require Import ZArith List Lia Bool String.
Import ListNotations.
Open Scope Z_scope.

(** ** Machine integers *)

Definition uint8 (z : Z) : Z := z mod 2 ^ 8.
Definition uint16 (z : Z) : Z := z mod 2 ^ 16.
Definition uint32 (z : Z) : Z := z mod 2 ^ 32.

(** [uint16_t region = address >> 16] *)
Definition region_of (address : Z) : Z := uint16 (Z.shiftr address 16).

(** ** Arrays indexed by region *)

Definition upd {A : Type} (f : Z -> A) (i : Z) (v : A) : Z -> A :=
  fun j => if j =? i then v else f j.

(** ** Handlers, mappings and the dispatch table *)

(** [struct mem_handler]: an opaque context and two entry points. *)
Record mem_handler : Type := mk_handler {
  opaque : Z;
  read32 : Z;
  write32 : Z
}.

(** [struct mem_mapping]; [end] is a keyword, hence [end_]. *)
Record mem_mapping : Type := mk_mapping {
  begin : Z;
  end_ : Z;
  type : Z;
  handler : mem_handler
}.

(** [struct memory].  The last four fields exist in DBG builds only; the
    other build never touches them. *)
Record memory : Type := mk_memory {
  handlers : Z -> mem_handler;
  base : Z;
  bp_checks : Z -> Z;
  saved_handlers : Z -> mem_handler;
  dbg_handler : mem_handler;
  memtype : Z -> Z
}.

Definition set_handlers (mem : memory) (f : Z -> mem_handler) : memory :=
  mk_memory f (base mem) (bp_checks mem) (saved_handlers mem)
            (dbg_handler mem) (memtype mem).

Definition set_base (mem : memory) (b : Z) : memory :=
  mk_memory (handlers mem) b (bp_checks mem) (saved_handlers mem)
            (dbg_handler mem) (memtype mem).

Definition set_bp_checks (mem : memory) (f : Z -> Z) : memory :=
  mk_memory (handlers mem) (base mem) f (saved_handlers mem)
            (dbg_handler mem) (memtype mem).

Definition set_saved_handlers (mem : memory) (f : Z -> mem_handler) : memory :=
  mk_memory (handlers mem) (base mem) (bp_checks mem) f
            (dbg_handler mem) (memtype mem).

Definition set_dbg_handler (mem : memory) (h : mem_handler) : memory :=
  mk_memory (handlers mem) (base mem) (bp_checks mem) (saved_handlers mem)
            h (memtype mem).

Definition set_memtype (mem : memory) (f : Z -> Z) : memory :=
  mk_memory (handlers mem) (base mem) (bp_checks mem) (saved_handlers mem)
            (dbg_handler mem) f.

(** [enum { BP_CHECK_READ = 0x1, BP_CHECK_WRITE = 0x2 }] *)
Definition BP_CHECK_READ : Z := 0x1.
Definition BP_CHECK_WRITE : Z := 0x2.

(** The test "neither read nor write bp is active": the mask anded with
    [BP_CHECK_READ | BP_CHECK_WRITE] is zero. *)
Definition bp_inactive (b : Z) : bool :=
  Z.land b (Z.lor BP_CHECK_READ BP_CHECK_WRITE) =? 0.

(** ** Breakpoint activation and deactivation (DBG builds) *)

Definition activate_memory_break_read (mem : memory) (address : Z) : memory :=
  let region := region_of address in
  let mem1 :=
    if bp_inactive (bp_checks mem region) then
      let mem' := set_saved_handlers mem
                    (upd (saved_handlers mem) region (handlers mem region)) in
      set_handlers mem' (upd (handlers mem') region (dbg_handler mem'))
    else mem in
  set_bp_checks mem1
    (upd (bp_checks mem1) region
         (uint8 (Z.lor (bp_checks mem1 region) BP_CHECK_READ))).

Definition deactivate_memory_break_read (mem : memory) (address : Z) : memory :=
  let region := region_of address in
  let mem1 :=
    set_bp_checks mem
      (upd (bp_checks mem) region
           (uint8 (Z.land (bp_checks mem region) (Z.lnot BP_CHECK_READ)))) in
  if bp_inactive (bp_checks mem1 region) then
    set_handlers mem1 (upd (handlers mem1) region (saved_handlers mem1 region))
  else mem1.

Definition activate_memory_break_write (mem : memory) (address : Z) : memory :=
  let region := region_of address in
  let mem1 :=
    if bp_inactive (bp_checks mem region) then
      let mem' := set_saved_handlers mem
                    (upd (saved_handlers mem) region (handlers mem region)) in
      set_handlers mem' (upd (handlers mem') region (dbg_handler mem'))
    else mem in
  set_bp_checks mem1
    (upd (bp_checks mem1) region
         (uint8 (Z.lor (bp_checks mem1 region) BP_CHECK_WRITE))).

Definition deactivate_memory_break_write (mem : memory) (address : Z) : memory :=
  let region := region_of address in
  let mem1 :=
    set_bp_checks mem
      (upd (bp_checks mem) region
           (uint8 (Z.land (bp_checks mem region) (Z.lnot BP_CHECK_WRITE)))) in
  if bp_inactive (bp_checks mem1 region) then
    set_handlers mem1 (upd (handlers mem1) region (saved_handlers mem1 region))
  else mem1.

(** [get_memory_type] *)
Definition get_memory_type (mem : memory) (address : Z) : Z :=
  memtype mem (Z.shiftr address 16).

(** ** What the module takes from outside the file *)

(** The DBG build switch, the debugger's breakpoint registry
    ([lookup_breakpoint] of debugger/dbg_breakpoints.h, queried with an
    address, a size and flags, answering an index or -1) and the flag
    constants of api/m64p_types.h.  None of them is defined in memory.c, so
    they are parameters of the model. *)
Record env : Type := mk_env {
  DBG : bool;
  lookup_breakpoint : Z -> Z -> Z -> Z;
  M64P_BKP_FLAG_ENABLED : Z;
  M64P_BKP_FLAG_READ : Z;
  M64P_BKP_FLAG_WRITE : Z
}.

(** ** Installing mappings *)

(** [map_region]: the DBG branch sets the type tag and asks the registry;
    the other build stores the handler directly. *)
Definition map_region (E : env) (mem : memory) (region : Z) (ty : Z)
    (h : mem_handler) : memory :=
  if DBG E then
    let mem1 := set_memtype mem (upd (memtype mem) region ty) in
    if negb (lookup_breakpoint E (uint32 (Z.shiftl region 16)) 0x10000
               (M64P_BKP_FLAG_ENABLED E) =? -1)
    then
      let mem2 := set_saved_handlers mem1
                    (upd (saved_handlers mem1) region h) in
      set_handlers mem2 (upd (handlers mem2) region (dbg_handler mem2))
    else
      set_handlers mem1 (upd (handlers mem1) region h)
  else
    set_handlers mem (upd (handlers mem) region h).

(** The loop [for (i = begin; i <= end; ++i) map_region(mem, i, ...)] of
    [apply_mem_mapping].  [i] is a [size_t], so it reaches [end + 1] without
    wrapping; it is narrowed to [uint16_t] at the call. *)
Fixpoint map_regions (fuel : nat) (E : env) (mem : memory) (i e : Z)
    (m : mem_mapping) : memory :=
  match fuel with
  | O => mem
  | S fuel' =>
      if i <=? e then
        map_regions fuel' E (map_region E mem (uint16 i) (type m) (handler m))
                    (i + 1) e m
      else mem
  end.

(** [apply_mem_mapping].  [begin] and [end] are [uint16_t].  The fuel is the
    number of values [i] takes from [begin] to [end], none when
    [end < begin]; [map_regions_state] shows the loop ends within it. *)
Definition apply_mem_mapping (E : env) (mem : memory) (m : mem_mapping)
    : memory :=
  let b := uint16 (Z.shiftr (begin m) 16) in
  let e := uint16 (Z.shiftr (end_ m) 16) in
  map_regions (Z.to_nat (e + 1 - b)) E mem b e m.

(** [init_memory].  The memset clears the 0x10000 mask bytes; the handler
    arrays are not written before the mappings are applied. *)
Definition init_memory (E : env) (mem : memory) (mappings : list mem_mapping)
    (base_ptr : Z) (dbg : mem_handler) : memory :=
  let mem1 :=
    if DBG E then
      set_dbg_handler
        (set_bp_checks mem
           (fun r => if (0 <=? r) && (r <? 0x10000) then 0
                     else bp_checks mem r))
        dbg
    else mem in
  let mem2 := set_base mem1 base_ptr in
  fold_left (apply_mem_mapping E) mappings mem2.

(** ** Dispatch and the breakpoint trampolines *)

(** What a dispatch makes happen outside the module: a report to the
    debugger ([check_breakpoints_on_mem_access]) or a call through a
    handler's entry point. *)
Inductive event : Type :=
| ev_check_breakpoints_on_mem_access (pc address size flags : Z)
| ev_read32 (fn ctx address : Z)
| ev_write32 (fn ctx address value mask : Z).

(** Modelled from the spec: [mem_read32] and [mem_write32] are inline
    functions of memory.h, which is not under src/.  "Dispatch Read /
    Dispatch Write: looks up the live handler for the region and invokes it,
    passing through the context."  A call through a null entry point has no
    defined behaviour: [None]. *)
Definition mem_read32 (h : mem_handler) (address : Z) : option (list event) :=
  if read32 h =? 0 then None
  else Some [ev_read32 (read32 h) (opaque h) address].

Definition mem_write32 (h : mem_handler) (address value mask : Z)
    : option (list event) :=
  if write32 h =? 0 then None
  else Some [ev_write32 (write32 h) (opaque h) address value mask].

(** Modelled from the spec: the lookup [mem_get_handler] of memory.h, the
    live slot of the address's region. *)
Definition mem_get_handler (mem : memory) (address : Z) : mem_handler :=
  handlers mem (Z.shiftr address 16).

Definition dispatch_read (mem : memory) (address : Z) : option (list event) :=
  mem_read32 (mem_get_handler mem address) address.

Definition dispatch_write (mem : memory) (address value mask : Z)
    : option (list event) :=
  mem_write32 (mem_get_handler mem address) address value mask.

(** [read_with_bp_checks].  [opaque] is the r4300 core: [mem] stands for
    its [mem] field and [pc] for the value behind [r4300_pc].  Without DBG
    the body is empty. *)
Definition read_with_bp_checks (E : env) (mem : memory) (pc : Z)
    (address : Z) : option (list event) :=
  if DBG E then
    let region := region_of address in
    let report :=
      if negb (Z.land (bp_checks mem region) BP_CHECK_READ =? 0) then
        [ev_check_breakpoints_on_mem_access (uint32 (pc - 0x4)) address 4
           (Z.lor (M64P_BKP_FLAG_ENABLED E) (M64P_BKP_FLAG_READ E))]
      else [] in
    option_map (app report) (mem_read32 (saved_handlers mem region) address)
  else Some [].

(** [write_with_bp_checks] *)
Definition write_with_bp_checks (E : env) (mem : memory) (pc : Z)
    (address value mask : Z) : option (list event) :=
  if DBG E then
    let region := region_of address in
    let report :=
      if negb (Z.land (bp_checks mem region) BP_CHECK_WRITE =? 0) then
        [ev_check_breakpoints_on_mem_access (uint32 (pc - 0x4)) address 4
           (Z.lor (M64P_BKP_FLAG_ENABLED E) (M64P_BKP_FLAG_WRITE E))]
      else [] in
    option_map (app report)
      (mem_write32 (saved_handlers mem region) address value mask)
  else Some [].

(** ** Sequences of debugger operations *)

(** The four entry points the debugger drives at run time. *)
Inductive bp_op : Type :=
| ActivateRead (address : Z)
| DeactivateRead (address : Z)
| ActivateWrite (address : Z)
| DeactivateWrite (address : Z).

Definition bp_step (mem : memory) (op : bp_op) : memory :=
  match op with
  | ActivateRead a => activate_memory_break_read mem a
  | DeactivateRead a => deactivate_memory_break_read mem a
  | ActivateWrite a => activate_memory_break_write mem a
  | DeactivateWrite a => deactivate_memory_break_write mem a
  end.

Definition bp_run (mem : memory) (ops : list bp_op) : memory :=
  fold_left bp_step ops mem.

(** * The flat base resolver *)

(** The address and size constants of memory.h, rcp/rsp/rsp_core.h and
    pif/pif.h.  memory.c only names them, so they are parameters of the
    model. *)
Record platform : Type := mk_platform {
  MM_RDRAM_DRAM : Z;
  MM_RDRAM_REGS : Z;
  MM_RSP_MEM : Z;
  MM_DD_ROM : Z;
  MM_CART_ROM : Z;
  MM_PIF_MEM : Z;
  MM_RDRAM_DRAM2 : Z;
  RDRAM_MEMORY_SIZE : Z;
  CART_ROM_MAX_SIZE : Z;
  SP_MEM_SIZE : Z;
  DD_ROM_MAX_SIZE : Z;
  PIF_ROM_SIZE : Z;
  PIF_RAM_SIZE : Z;
  MB_RDRAM_DRAM_ALIGNMENT_REQUIREMENT : Z;
  MB_ALIGNMENT_REQUIREMENT : Z
}.

(** [MemoryBase]: the five buffer pointers. *)
Record MemoryBase : Type := mk_MemoryBase {
  rdram : Z;
  cartrom : Z;
  rspmem : Z;
  ddrom : Z;
  pifmem : Z
}.

(** The five buffers, in allocation order. *)
Inductive buffer : Type := Rdram | Cartrom | Rspmem | Ddrom | Pifmem.

Definition buffer_ptr (mb : MemoryBase) (b : buffer) : Z :=
  match b with
  | Rdram => rdram mb
  | Cartrom => cartrom mb
  | Rspmem => rspmem mb
  | Ddrom => ddrom mb
  | Pifmem => pifmem mb
  end.

Definition set_buffer_ptr (mb : MemoryBase) (b : buffer) (p : Z) : MemoryBase :=
  match b with
  | Rdram => mk_MemoryBase p (cartrom mb) (rspmem mb) (ddrom mb) (pifmem mb)
  | Cartrom => mk_MemoryBase (rdram mb) p (rspmem mb) (ddrom mb) (pifmem mb)
  | Rspmem => mk_MemoryBase (rdram mb) (cartrom mb) p (ddrom mb) (pifmem mb)
  | Ddrom => mk_MemoryBase (rdram mb) (cartrom mb) (rspmem mb) p (pifmem mb)
  | Pifmem => mk_MemoryBase (rdram mb) (cartrom mb) (rspmem mb) (ddrom mb) p
  end.

(** The size and the alignment each buffer is requested with. *)
Definition buffer_size (P : platform) (b : buffer) : Z :=
  match b with
  | Rdram => RDRAM_MEMORY_SIZE P
  | Cartrom => CART_ROM_MAX_SIZE P
  | Rspmem => SP_MEM_SIZE P
  | Ddrom => DD_ROM_MAX_SIZE P
  | Pifmem => PIF_ROM_SIZE P + PIF_RAM_SIZE P
  end.

Definition buffer_alignment (P : platform) (b : buffer) : Z :=
  match b with
  | Rdram => MB_RDRAM_DRAM_ALIGNMENT_REQUIREMENT P
  | _ => MB_ALIGNMENT_REQUIREMENT P
  end.

(** The text of each failure's diagnostic. *)
Definition failure_message (b : buffer) : string :=
  match b with
  | Rdram => "Failed to allocate rdram"
  | Cartrom => "Failed to allocate cartrom"
  | Rspmem => "Failed to allocate rspmem"
  | Ddrom => "Failed to allocate ddrom"
  | Pifmem => "Failed to allocate pifmem"
  end%string.

(** ** The host: allocator and diagnostics *)

Inductive m64p_msg_level : Type :=
| M64MSG_ERROR | M64MSG_WARNING | M64MSG_INFO | M64MSG_STATUS | M64MSG_VERBOSE.

(** A block the allocator handed out. *)
Record block : Type := mk_block {
  block_ptr : Z;
  block_alignment : Z;
  block_size : Z
}.

(** The host as [init_mem_base] and [release_mem_base] see it: the answers
    the allocator will give to the coming requests ([Some p] a block at [p],
    [None] a failure), the blocks handed out and not freed, the pointers
    passed to [free], and the diagnostics sent to [DebugMessage], oldest
    first. *)
Record host : Type := mk_host {
  answers : list (option Z);
  live : list block;
  released : list Z;
  messages : list (m64p_msg_level * string)
}.

(** One aligned allocation ([posix_memalign], or [_aligned_malloc] under
    _WIN32): the next answer of the host.  A host with no answer left
    fails the request. *)
Definition aligned_alloc (h : host) (alignment size : Z) : option Z * host :=
  match answers h with
  | Some p :: rest =>
      (Some p, mk_host rest (mk_block p alignment size :: live h)
                       (released h) (messages h))
  | None :: rest => (None, mk_host rest (live h) (released h) (messages h))
  | [] => (None, h)
  end.

Definition DebugMessage (h : host) (level : m64p_msg_level) (text : string)
    : host :=
  mk_host (answers h) (live h) (released h) (messages h ++ [(level, text)]).

(** [free] (or [_aligned_free]): a null pointer is ignored. *)
Definition free (h : host) (p : Z) : host :=
  if p =? 0 then h
  else mk_host (answers h)
               (filter (fun b => negb (block_ptr b =? p)) (live h))
               (released h ++ [p]) (messages h).

(** One step of [init_mem_base]: request buffer [b]; on failure the field
    is null, the diagnostic is sent and the function returns 1.  Both
    branches of the _WIN32 switch read the same here: the field ends up
    holding the block or NULL. *)
Definition alloc_buffer (P : platform) (b : buffer) (mb : MemoryBase) (h : host)
    : option Z * MemoryBase * host :=
  match aligned_alloc h (buffer_alignment P b) (buffer_size P b) with
  | (Some p, h') => (None, set_buffer_ptr mb b p, h')
  | (None, h') =>
      (Some 1, set_buffer_ptr mb b 0,
       DebugMessage h' M64MSG_ERROR (failure_message b))
  end.

(** [init_mem_base]: the five requests in order, returning at the first
    failure.  The result is the returned [int], the [MemoryBase] and the
    host. *)
Definition init_mem_base (P : platform) (mb : MemoryBase) (h : host)
    : Z * MemoryBase * host :=
  match alloc_buffer P Rdram mb h with
  | (Some r, mb1, h1) => (r, mb1, h1)
  | (None, mb1, h1) =>
  match alloc_buffer P Cartrom mb1 h1 with
  | (Some r, mb2, h2) => (r, mb2, h2)
  | (None, mb2, h2) =>
  match alloc_buffer P Rspmem mb2 h2 with
  | (Some r, mb3, h3) => (r, mb3, h3)
  | (None, mb3, h3) =>
  match alloc_buffer P Ddrom mb3 h3 with
  | (Some r, mb4, h4) => (r, mb4, h4)
  | (None, mb4, h4) =>
  match alloc_buffer P Pifmem mb4 h4 with
  | (Some r, mb5, h5) => (r, mb5, h5)
  | (None, mb5, h5) => (0, mb5, h5)
  end end end end end.

(** [release_mem_base] *)
Definition release_mem_base (mb : MemoryBase) (h : host) : host :=
  free (free (free (free (free h (rdram mb)) (cartrom mb)) (rspmem mb))
             (ddrom mb)) (pifmem mb).

(** ** Address translation *)

(** [mem_base_u32].  The result is the host pointer, 0 for NULL; the
    32-bit differences wrap. *)
Definition mem_base_u32 (P : platform) (mb : MemoryBase) (address : Z) : Z :=
  if address <? MM_RDRAM_REGS P then
    rdram mb + uint32 (address - MM_RDRAM_DRAM P)
  else if address >=? MM_CART_ROM P then
    if Z.land address 0xfff00000 =? MM_PIF_MEM P then
      pifmem mb + uint32 (address - MM_PIF_MEM P)
    else
      cartrom mb + uint32 (address - MM_CART_ROM P)
  else if Z.land address 0xfe000000 =? MM_DD_ROM P then
    ddrom mb + uint32 (address - MM_DD_ROM P)
  else if Z.land address 0xffffe000 =? MM_RSP_MEM P then
    rspmem mb + uint32 (address - MM_RSP_MEM P)
  else if address >=? MM_RDRAM_DRAM2 P then
    rdram mb + uint32 (address - MM_RDRAM_DRAM2 P + MM_RDRAM_REGS P)
  else
    0.

(** A pointer lies within buffer [b] of [mb]. *)
Definition within (P : platform) (mb : MemoryBase) (b : buffer) (p : Z) : Prop :=
  buffer_ptr mb b <= p < buffer_ptr mb b + buffer_size P b.

(** ** The resolver as section 4.2 of the specification words it *)

(** One line of the priority list: when it applies, and where it points
    (a buffer and a byte offset into it). *)
Record rule : Type := mk_rule {
  applies : Z -> bool;
  target : Z -> buffer * Z
}.

(** "falls in the fixed high-order ... window": the address's high-order
    bits are the window's base. *)
Definition in_window (high_bits window_base address : Z) : bool :=
  Z.land address high_bits =? window_base.

(** Rules 1 to 5 of section 4.2, top to bottom; rule 6 is the absence of a
    match. *)
Definition resolve_rules (P : platform) : list rule :=
  [ mk_rule (fun a => a <? MM_RDRAM_REGS P)
            (fun a => (Rdram, uint32 (a - MM_RDRAM_DRAM P)));
    mk_rule (fun a => MM_CART_ROM P <=? a)
            (fun a => if in_window 0xfff00000 (MM_PIF_MEM P) a
                      then (Pifmem, uint32 (a - MM_PIF_MEM P))
                      else (Cartrom, uint32 (a - MM_CART_ROM P)));
    mk_rule (in_window 0xfe000000 (MM_DD_ROM P))
            (fun a => (Ddrom, uint32 (a - MM_DD_ROM P)));
    mk_rule (in_window 0xffffe000 (MM_RSP_MEM P))
            (fun a => (Rspmem, uint32 (a - MM_RSP_MEM P)));
    mk_rule (fun a => MM_RDRAM_DRAM2 P <=? a)
            (fun a => (Rdram, uint32 (a - MM_RDRAM_DRAM2 P + MM_RDRAM_REGS P))) ].

(** "evaluated top to bottom, first match wins" *)
Fixpoint first_match (rules : list rule) (address : Z) : option (buffer * Z) :=
  match rules with
  | [] => None
  | r :: rest =>
      if applies r address then Some (target r address)
      else first_match rest address
  end.

Definition Resolve (P : platform) (address : Z) : option (buffer * Z) :=
  first_match (resolve_rules P) address.

(** The host pointer a resolved target stands for. *)
Definition pointer_of (mb : MemoryBase) (t : option (buffer * Z)) : Z :=
  match t with
  | None => 0
  | Some (b, ofs) => buffer_ptr mb b + ofs
  end.

(** * Notions the statements use *)

(** The registry answers that region [region] holds an enabled breakpoint:
    the test of [map_region], which only a DBG build makes. *)
Definition breakpoint_enabled (E : env) (region : Z) : bool :=
  DBG E &&
  negb (lookup_breakpoint E (uint32 (Z.shiftl region 16)) 0x10000
          (M64P_BKP_FLAG_ENABLED E) =? -1).

(** Region [r] is one of the regions [begin >> 16 .. end >> 16] of [m]. *)
Definition covers (m : mem_mapping) (r : Z) : bool :=
  (region_of (begin m) <=? r) && (r <=? region_of (end_ m)).

(** Everything the table holds for one region. *)
Definition region_state (mem : memory) (r : Z)
    : mem_handler * mem_handler * Z * Z :=
  (handlers mem r, saved_handlers mem r, memtype mem r, bp_checks mem r).

(** What [map_region] leaves in the region it is called for. *)
Definition mapped_state (E : env) (mem : memory) (region ty : Z)
    (h : mem_handler) : mem_handler * mem_handler * Z * Z :=
  (if breakpoint_enabled E region then dbg_handler mem else h,
   if breakpoint_enabled E region then h else saved_handlers mem region,
   if DBG E then ty else memtype mem region,
   bp_checks mem region).

(** What an activation leaves in its region: [bit] is the kind's mask bit. *)
Definition activated_state (mem : memory) (r bit : Z)
    : mem_handler * mem_handler * Z * Z :=
  (if bp_inactive (bp_checks mem r) then dbg_handler mem else handlers mem r,
   if bp_inactive (bp_checks mem r) then handlers mem r
   else saved_handlers mem r,
   memtype mem r,
   uint8 (Z.lor (bp_checks mem r) bit)).

(** What a deactivation leaves in its region. *)
Definition deactivated_state (mem : memory) (r bit : Z)
    : mem_handler * mem_handler * Z * Z :=
  (if bp_inactive (uint8 (Z.land (bp_checks mem r) (Z.lnot bit)))
   then saved_handlers mem r else handlers mem r,
   saved_handlers mem r,
   memtype mem r,
   uint8 (Z.land (bp_checks mem r) (Z.lnot bit))).

(** The run-time life of a table: mappings are installed and the debugger
    switches interception on and off. *)
Inductive table_op : Type :=
| Install (m : mem_mapping)
| Debugger (op : bp_op).

Definition table_step (E : env) (mem : memory) (op : table_op) : memory :=
  match op with
  | Install m => apply_mem_mapping E mem m
  | Debugger o => bp_step mem o
  end.

Definition table_run (E : env) (mem : memory) (ops : list table_op) : memory :=
  fold_left (table_step E) ops mem.

(** An operation that sets mask bit [k] (0 for reads, 1 for writes) of
    region [r]: only the matching activation. *)
Definition activates (k : Z) (r : Z) (op : table_op) : Prop :=
  match op with
  | Debugger (ActivateRead a) => k = 0 /\ region_of a = r
  | Debugger (ActivateWrite a) => k = 1 /\ region_of a = r
  | _ => False
  end.

(** The report a trampoline sends to the debugger. *)
Definition read_report (E : env) (pc address : Z) : event :=
  ev_check_breakpoints_on_mem_access (uint32 (pc - 0x4)) address 4
    (Z.lor (M64P_BKP_FLAG_ENABLED E) (M64P_BKP_FLAG_READ E)).

Definition write_report (E : env) (pc address : Z) : event :=
  ev_check_breakpoints_on_mem_access (uint32 (pc - 0x4)) address 4
    (Z.lor (M64P_BKP_FLAG_ENABLED E) (M64P_BKP_FLAG_WRITE E)).

(** The buffers in the order [init_mem_base] requests them. *)
Definition buffers : list buffer := [Rdram; Cartrom; Rspmem; Ddrom; Pifmem].

(** The position of a buffer in that order. *)
Definition buffer_index (b : buffer) : nat :=
  match b with
  | Rdram => 0 | Cartrom => 1 | Rspmem => 2 | Ddrom => 3 | Pifmem => 4
  end%nat.

(** The blocks the host hands out when the first requests are answered
    with the pointers [got], oldest first. *)
Definition granted (P : platform) (got : list Z) : list block :=
  map (fun bp : buffer * Z =>
         mk_block (snd bp) (buffer_alignment P (fst bp))
                  (buffer_size P (fst bp)))
      (combine buffers got).

(** The [MemoryBase] with those pointers stored in the first fields. *)
Definition store_granted (mb : MemoryBase) (got : list Z) : MemoryBase :=
  fold_left (fun (acc : MemoryBase) (bp : buffer * Z) =>
               set_buffer_ptr acc (fst bp) (snd bp))
            (combine buffers got) mb.

(** "No leaked partial state": when [init_mem_base] reports a failure, no
    block granted during the call is still allocated. *)
Definition releases_partial_allocations (P : platform) (mb : MemoryBase)
    (h : host) : Prop :=
  fst (fst (init_mem_base P mb h)) <> 0 ->
  forall blk, In blk (live (snd (init_mem_base P mb h))) -> In blk (live h).

(** "Lies strictly within the bounds of exactly one of the five buffers",
    or is null. *)
Definition resolves_within (P : platform) (mb : MemoryBase) (a : Z) : Prop :=
  mem_base_u32 P mb a = 0 \/
  exists b, within P mb b (mem_base_u32 P mb a) /\
            forall b', within P mb b' (mem_base_u32 P mb a) -> b' = b.

(** Modelled from the spec: the address and size constants are defined in
    memory.h, which is not under src/; sections 1 and 9 leave them to the
    console's hardware memory map.  That map puts the RDRAM registers at
    0x03f00000, the cartridge ROM at 0x10000000 with at most 64 MiB, and
    the boot ROM and RAM at 0x1fc00000. *)
Definition console_cartridge_window (P : platform) : Prop :=
  MM_RDRAM_REGS P = 0x03f00000 /\
  MM_CART_ROM P = 0x10000000 /\
  MM_PIF_MEM P = 0x1fc00000 /\
  CART_ROM_MAX_SIZE P = 0x4000000.

(** The overlay invariant of section 3 for one region, over the region's
    state: [real] is the handler the region really dispatches to and [dbg]
    the shared debug handler.  A mask is 0, 1, 2 or 3. *)
Definition overlay_holds (real dbg : mem_handler)
    (s : mem_handler * mem_handler * Z * Z) : Prop :=
  let '(live_slot, shadow, _, mask) := s in
  0 <= mask < 4 /\
  if mask =? 0 then live_slot = real
  else shadow = real /\ live_slot = dbg.

Definition overlay_invariant (real : Z -> mem_handler) (mem : memory)
    (r : Z) : Prop :=
  overlay_holds (real r) (dbg_handler mem) (region_state mem r).

(** Every deactivation of a run addresses a region whose mask is nonzero
    at that moment. *)
Fixpoint deactivations_hit_active (mem : memory) (ops : list bp_op) : Prop :=
  match ops with
  | [] => True
  | op :: rest =>
      match op with
      | DeactivateRead a | DeactivateWrite a =>
          bp_inactive (bp_checks mem (region_of a)) = false
      | _ => True
      end /\
      deactivations_hit_active (bp_step mem op) rest
  end.

(** ** Notions of the further properties *)

(** An activation and a deactivation as functions on one region's state,
    [dbg] being the shared debug handler. *)
Definition activate_in (dbg : mem_handler) (bit : Z)
    (s : mem_handler * mem_handler * Z * Z)
    : mem_handler * mem_handler * Z * Z :=
  let '(live_slot, shadow, ty, mask) := s in
  (if bp_inactive mask then dbg else live_slot,
   if bp_inactive mask then live_slot else shadow,
   ty,
   uint8 (Z.lor mask bit)).

Definition deactivate_in (bit : Z) (s : mem_handler * mem_handler * Z * Z)
    : mem_handler * mem_handler * Z * Z :=
  let '(live_slot, shadow, ty, mask) := s in
  (if bp_inactive (uint8 (Z.land mask (Z.lnot bit))) then shadow
   else live_slot,
   shadow,
   ty,
   uint8 (Z.land mask (Z.lnot bit))).

(** The address a debugger operation is called with. *)
Definition bp_address (op : bp_op) : Z :=
  match op with
  | ActivateRead a | DeactivateRead a | ActivateWrite a | DeactivateWrite a => a
  end.

(** The mapping of a list that is applied last among those covering
    region [r]. *)
Definition last_covering (mappings : list mem_mapping) (r : Z)
    : option mem_mapping :=
  find (fun m => covers m r) (rev mappings).

(** [Memory_GetBaseAddress] of api/memoryexport.c, over the global
    [g_mem_base]. *)
Definition Memory_GetBaseAddress (g_mem_base : MemoryBase) : Z :=
  rdram g_mem_base.

(** The five pointers [release_mem_base] passes to [free], in order. *)
Definition buffer_ptrs (mb : MemoryBase) : list Z :=
  [rdram mb; cartrom mb; rspmem mb; ddrom mb; pifmem mb].

(** Pointer [p] is passed to [free] as a non-null member of [ps]. *)
Definition freed_by (ps : list Z) (p : Z) : bool :=
  existsb (fun q => negb (q =? 0) && (p =? q)) ps.

(** * Concrete instances used by the examples *)

(** A [struct memory] in static storage before any call: all zero. *)
Definition null_handler : mem_handler := mk_handler 0 0 0.

Definition zero_memory : memory :=
  mk_memory (fun _ => null_handler) 0 (fun _ => 0) (fun _ => null_handler)
            null_handler (fun _ => 0).

(** A RAM handler, a ROM handler and the debugger's handler, as device
    setup would pass them: distinct non-null entry points. *)
Definition ram_handler : mem_handler := mk_handler 0x7000 0x401000 0x401100.
Definition rom_handler : mem_handler := mk_handler 0x7100 0x402000 0x402100.
Definition debug_handler : mem_handler := mk_handler 0x7200 0x403000 0x403100.

(** The flag values of api/m64p_types.h. *)
Definition no_breakpoints (dbg : bool) : env :=
  mk_env dbg (fun _ _ _ => -1) 0x01 0x08 0x10.

(** A registry holding one enabled breakpoint, at index 0, inside the
    region that starts at [region_base]. *)
Definition one_breakpoint (region_base : Z) : env :=
  mk_env true
    (fun address size flags =>
       if (address <=? region_base) && (region_base <? address + size)
       then 0 else -1)
    0x01 0x08 0x10.

(** A mapping of the two regions 0x8000 and 0x8001 to the RAM handler. *)
Definition ram_mapping : mem_mapping :=
  mk_mapping 0x80000000 0x8001ffff 2 ram_handler.

(** The table after device setup mapped RAM with no breakpoint registered:
    every mask is clear and the live slots hold the real handlers.  It is
    also what a later [init_memory] finds in the handler array. *)
Definition used_memory : memory :=
  init_memory (no_breakpoints true) zero_memory [ram_mapping] 0 debug_handler.

(** The table after device setup mapped RAM while the registry held an
    enabled breakpoint at 0x80010040, in region 0x8001. *)
Definition intercepted_memory : memory :=
  init_memory (one_breakpoint 0x80010040) zero_memory [ram_mapping] 0
              debug_handler.

(** A platform for the examples: the console's memory map, with sample
    values for the second RDRAM window, the RDRAM buffer size and the two
    alignments. *)
Definition example_platform : platform :=
  mk_platform 0x00000000 0x03f00000 0x04000000 0x06000000 0x10000000
              0x1fc00000 0x08000000
              0x0bf00000 0x4000000 0x2000 0x400000 0x7c0 0x40
              0x10000 0x1000.

(** Five buffers as an allocator could place them, far apart. *)
Definition example_base : MemoryBase :=
  mk_MemoryBase 0x500000000 0x100000000 0x200000000 0x300000000 0x400000000.

Definition null_base : MemoryBase := mk_MemoryBase 0 0 0 0 0.

(** A host that grants three requests and refuses the fourth, and one
    that refuses the first. *)
Definition fourth_fails : host :=
  mk_host [Some 0x10000; Some 0x20000; Some 0x30000; None] [] [] [].

Definition first_fails : host := mk_host [None] [] [] [].

(** * Lemmas on machine integers and region arrays *)

Lemma upd_same {A : Type} (f : Z -> A) (i : Z) (v : A) : upd f i v i = v.
Proof. unfold upd. now rewrite Z.eqb_refl. Qed.

Lemma upd_other {A : Type} (f : Z -> A) (i j : Z) (v : A) :
  j <> i -> upd f i v j = f j.
Proof. unfold upd. intros H. apply Z.eqb_neq in H. now rewrite H. Qed.

Lemma uint16_range (z : Z) : 0 <= uint16 z < 0x10000.
Proof. unfold uint16. apply Z.mod_pos_bound. reflexivity. Qed.

Lemma uint16_small (z : Z) : 0 <= z < 0x10000 -> uint16 z = z.
Proof. intros H. unfold uint16. now apply Z.mod_small. Qed.

Lemma region_of_range (a : Z) : 0 <= region_of a < 0x10000.
Proof. apply uint16_range. Qed.

Lemma uint32_range (z : Z) : 0 <= uint32 z < 2 ^ 32.
Proof. unfold uint32. apply Z.mod_pos_bound. reflexivity. Qed.

(** A single-bit mask tests that bit. *)
Lemma land_pow2_testbit (b k : Z) :
  0 <= k -> Z.land b (2 ^ k) = if Z.testbit b k then 2 ^ k else 0.
Proof.
  intros Hk. apply Z.bits_inj'. intros n Hn.
  rewrite Z.land_spec, Z.pow2_bits_eqb by assumption.
  destruct (Z.eqb_spec k n) as [->|Hne].
  - destruct (Z.testbit b n); simpl.
    + now rewrite Z.pow2_bits_true.
    + now rewrite Z.bits_0.
  - rewrite andb_false_r. destruct (Z.testbit b k).
    + rewrite Z.pow2_bits_false; auto.
    + now rewrite Z.bits_0.
Qed.

Lemma read_bit_test (b : Z) :
  (Z.land b BP_CHECK_READ =? 0) = negb (Z.testbit b 0).
Proof.
  change BP_CHECK_READ with (2 ^ 0). rewrite land_pow2_testbit by lia.
  now destruct (Z.testbit b 0).
Qed.

Lemma write_bit_test (b : Z) :
  (Z.land b BP_CHECK_WRITE =? 0) = negb (Z.testbit b 1).
Proof.
  change BP_CHECK_WRITE with (2 ^ 1). rewrite land_pow2_testbit by lia.
  now destruct (Z.testbit b 1).
Qed.

Lemma bp_inactive_bits (b : Z) :
  bp_inactive b = negb (Z.testbit b 0) && negb (Z.testbit b 1).
Proof.
  unfold bp_inactive. rewrite Z.land_lor_distr_r.
  rewrite <- read_bit_test, <- write_bit_test.
  destruct (Z.eqb_spec (Z.land b BP_CHECK_READ) 0) as [H0|H0];
    destruct (Z.eqb_spec (Z.land b BP_CHECK_WRITE) 0) as [H1|H1]; simpl;
    try (rewrite H0); try (rewrite H1); try reflexivity;
    apply Z.eqb_neq; intros H; apply Z.lor_eq_0_iff in H; tauto.
Qed.

Lemma uint8_testbit (x n : Z) :
  0 <= n < 8 -> Z.testbit (uint8 x) n = Z.testbit x n.
Proof. intros H. unfold uint8. apply Z.mod_pow2_bits_low. lia. Qed.

(** * Installing mappings: [map_region] and [apply_mem_mapping] *)

(** Proofs about the loop go through the lemmas below, never by unfolding
    it. *)
Arguments apply_mem_mapping : simpl never.

Lemma map_region_state (E : env) (mem : memory) (region ty : Z)
    (h : mem_handler) (r : Z) :
  region_state (map_region E mem region ty h) r =
  if r =? region then mapped_state E mem region ty h else region_state mem r.
Proof.
  unfold map_region, mapped_state, breakpoint_enabled, region_state.
  destruct (DBG E); simpl.
  - destruct (lookup_breakpoint E _ _ _ =? -1); simpl; unfold upd;
      destruct (Z.eqb_spec r region) as [->|Hne]; reflexivity.
  - unfold upd. destruct (Z.eqb_spec r region) as [->|Hne]; reflexivity.
Qed.

Lemma map_region_globals (E : env) (mem : memory) (region ty : Z)
    (h : mem_handler) :
  dbg_handler (map_region E mem region ty h) = dbg_handler mem /\
  base (map_region E mem region ty h) = base mem.
Proof.
  unfold map_region. destruct (DBG E); simpl.
  - destruct (negb _); simpl; auto.
  - auto.
Qed.

(** The loop, given fuel for the iterations that remain, leaves in each
    region of [i .. e] what [map_region] writes there and nothing else
    anywhere. *)
Lemma map_regions_state (E : env) (m : mem_mapping) (e : Z) :
  e < 0x10000 ->
  forall (fuel : nat) (mem : memory) (i r : Z),
    0 <= i -> e + 1 - i <= Z.of_nat fuel ->
    region_state (map_regions fuel E mem i e m) r =
    (if (i <=? r) && (r <=? e)
     then mapped_state E mem r (type m) (handler m)
     else region_state mem r) /\
    dbg_handler (map_regions fuel E mem i e m) = dbg_handler mem /\
    base (map_regions fuel E mem i e m) = base mem.
Proof.
  intros He fuel. induction fuel as [|fuel IH]; intros mem i r Hi Hfuel.
  - simpl. replace ((i <=? r) && (r <=? e)) with false; auto.
    symmetry. apply andb_false_iff.
    destruct (Z.leb_spec i r); destruct (Z.leb_spec r e); auto; lia.
  - cbn [map_regions]. destruct (Z.leb_spec i e) as [Hie|Hie].
    + assert (Hu : uint16 i = i) by (apply uint16_small; lia).
      rewrite Hu.
      destruct (map_region_globals E mem i (type m) (handler m)) as [Hd Hb].
      destruct (IH (map_region E mem i (type m) (handler m)) (i + 1) r)
        as (Hs & Hd' & Hb'); [lia | lia |].
      rewrite Hs, Hd', Hb', Hd, Hb. split; [|auto].
      rewrite map_region_state.
      destruct (Z.eqb_spec r i) as [->|Hne].
      * replace (i + 1 <=? i) with false by (symmetry; apply Z.leb_gt; lia).
        rewrite Z.leb_refl. simpl.
        replace (i <=? e) with true by (symmetry; apply Z.leb_le; lia).
        reflexivity.
      * destruct (Z.leb_spec (i + 1) r); destruct (Z.leb_spec i r);
          try lia; simpl; try reflexivity.
        destruct (r <=? e); [|reflexivity].
        unfold mapped_state. rewrite Hd.
        assert (Hr : region_state (map_region E mem i (type m) (handler m)) r
                     = region_state mem r).
        { rewrite map_region_state.
          destruct (Z.eqb_spec r i); [lia | reflexivity]. }
        unfold region_state in Hr. now inversion Hr.
    + split; [|auto].
      replace ((i <=? r) && (r <=? e)) with false; auto.
      symmetry. apply andb_false_iff.
      destruct (Z.leb_spec i r); destruct (Z.leb_spec r e); auto; lia.
Qed.

Lemma apply_mem_mapping_state (E : env) (mem : memory) (m : mem_mapping)
    (r : Z) :
  region_state (apply_mem_mapping E mem m) r =
  (if covers m r then mapped_state E mem r (type m) (handler m)
   else region_state mem r) /\
  dbg_handler (apply_mem_mapping E mem m) = dbg_handler mem /\
  base (apply_mem_mapping E mem m) = base mem.
Proof.
  unfold apply_mem_mapping, covers.
  pose proof (region_of_range (begin m)) as Hb.
  pose proof (region_of_range (end_ m)) as He.
  unfold region_of in *.
  apply map_regions_state; lia.
Qed.

(** * Activation and deactivation, region by region *)

Lemma activate_read_state (mem : memory) (a r : Z) :
  region_state (activate_memory_break_read mem a) r =
  if r =? region_of a then activated_state mem r BP_CHECK_READ
  else region_state mem r.
Proof.
  unfold activate_memory_break_read, activated_state, region_state.
  destruct (Z.eqb_spec r (region_of a)) as [->|Hne].
  - destruct (bp_inactive (bp_checks mem (region_of a))); simpl;
      now rewrite ?upd_same.
  - destruct (bp_inactive (bp_checks mem (region_of a))); simpl;
      now rewrite ?upd_other by assumption.
Qed.

Lemma activate_write_state (mem : memory) (a r : Z) :
  region_state (activate_memory_break_write mem a) r =
  if r =? region_of a then activated_state mem r BP_CHECK_WRITE
  else region_state mem r.
Proof.
  unfold activate_memory_break_write, activated_state, region_state.
  destruct (Z.eqb_spec r (region_of a)) as [->|Hne].
  - destruct (bp_inactive (bp_checks mem (region_of a))); simpl;
      now rewrite ?upd_same.
  - destruct (bp_inactive (bp_checks mem (region_of a))); simpl;
      now rewrite ?upd_other by assumption.
Qed.

Lemma deactivate_read_state (mem : memory) (a r : Z) :
  region_state (deactivate_memory_break_read mem a) r =
  if r =? region_of a then deactivated_state mem r BP_CHECK_READ
  else region_state mem r.
Proof.
  unfold deactivate_memory_break_read, deactivated_state, region_state.
  cbn [bp_checks set_bp_checks]. rewrite upd_same.
  destruct (Z.eqb_spec r (region_of a)) as [->|Hne].
  - destruct (bp_inactive _); simpl; now rewrite ?upd_same.
  - destruct (bp_inactive _); simpl; now rewrite ?upd_other by assumption.
Qed.

Lemma deactivate_write_state (mem : memory) (a r : Z) :
  region_state (deactivate_memory_break_write mem a) r =
  if r =? region_of a then deactivated_state mem r BP_CHECK_WRITE
  else region_state mem r.
Proof.
  unfold deactivate_memory_break_write, deactivated_state, region_state.
  cbn [bp_checks set_bp_checks]. rewrite upd_same.
  destruct (Z.eqb_spec r (region_of a)) as [->|Hne].
  - destruct (bp_inactive _); simpl; now rewrite ?upd_same.
  - destruct (bp_inactive _); simpl; now rewrite ?upd_other by assumption.
Qed.

Lemma bp_step_dbg_handler (mem : memory) (op : bp_op) :
  dbg_handler (bp_step mem op) = dbg_handler mem.
Proof.
  destruct op; cbn [bp_step];
    unfold activate_memory_break_read, activate_memory_break_write,
      deactivate_memory_break_read, deactivate_memory_break_write;
    match goal with |- context [if ?c then _ else _] => destruct c end;
    reflexivity.
Qed.

(** The components of a region's state, read off an equation. *)
Lemma region_state_parts (mem : memory) (r : Z) (hd sv : mem_handler)
    (ty mk : Z) :
  region_state mem r = (hd, sv, ty, mk) ->
  handlers mem r = hd /\ saved_handlers mem r = sv /\
  memtype mem r = ty /\ bp_checks mem r = mk.
Proof. unfold region_state. intros H. inversion H. auto. Qed.

Lemma region_state_eq (mem mem' : memory) (r : Z) :
  region_state mem' r = region_state mem r ->
  handlers mem' r = handlers mem r /\
  saved_handlers mem' r = saved_handlers mem r /\
  memtype mem' r = memtype mem r /\
  bp_checks mem' r = bp_checks mem r.
Proof. unfold region_state. intros H. inversion H. auto. Qed.

(** * Mask bits *)

Lemma mask_set_testbit (b bit n : Z) :
  0 <= n < 8 ->
  Z.testbit (uint8 (Z.lor b bit)) n = Z.testbit b n || Z.testbit bit n.
Proof. intros H. now rewrite uint8_testbit, Z.lor_spec. Qed.

Lemma mask_clear_testbit (b bit n : Z) :
  0 <= n < 8 ->
  Z.testbit (uint8 (Z.land b (Z.lnot bit))) n =
  Z.testbit b n && negb (Z.testbit bit n).
Proof.
  intros H. rewrite uint8_testbit, Z.land_spec, Z.lnot_spec by lia.
  reflexivity.
Qed.

Lemma apply_mem_mapping_mask (E : env) (mem : memory) (m : mem_mapping)
    (r : Z) :
  bp_checks (apply_mem_mapping E mem m) r = bp_checks mem r.
Proof.
  destruct (apply_mem_mapping_state E mem m r) as [H _].
  destruct (covers m r).
  - apply region_state_parts in H. tauto.
  - apply region_state_eq in H. tauto.
Qed.

Lemma table_step_mask_bit (E : env) (mem : memory) (op : table_op)
    (r k : Z) :
  k = 0 \/ k = 1 ->
  Z.testbit (bp_checks (table_step E mem op) r) k = true ->
  Z.testbit (bp_checks mem r) k = true \/ activates k r op.
Proof.
  intros Hk H. destruct op as [m|[a|a|a|a]];
    cbn [table_step bp_step activates] in *.
  - rewrite apply_mem_mapping_mask in H. auto.
  - pose proof (activate_read_state mem a r) as Hs.
    destruct (Z.eqb_spec r (region_of a)) as [->|Hne].
    + apply region_state_parts in Hs. destruct Hs as (_ & _ & _ & Hm).
      rewrite Hm, mask_set_testbit in H by lia.
      destruct Hk as [->| ->]; [right; auto|].
      left. simpl in H. now rewrite orb_false_r in H.
    + apply region_state_eq in Hs. destruct Hs as (_ & _ & _ & Hm).
      rewrite Hm in H. auto.
  - pose proof (deactivate_read_state mem a r) as Hs.
    destruct (Z.eqb_spec r (region_of a)) as [->|Hne].
    + apply region_state_parts in Hs. destruct Hs as (_ & _ & _ & Hm).
      rewrite Hm, mask_clear_testbit in H by lia.
      left. apply andb_prop in H. tauto.
    + apply region_state_eq in Hs. destruct Hs as (_ & _ & _ & Hm).
      rewrite Hm in H. auto.
  - pose proof (activate_write_state mem a r) as Hs.
    destruct (Z.eqb_spec r (region_of a)) as [->|Hne].
    + apply region_state_parts in Hs. destruct Hs as (_ & _ & _ & Hm).
      rewrite Hm, mask_set_testbit in H by lia.
      destruct Hk as [->| ->]; [|right; auto].
      left. simpl in H. now rewrite orb_false_r in H.
    + apply region_state_eq in Hs. destruct Hs as (_ & _ & _ & Hm).
      rewrite Hm in H. auto.
  - pose proof (deactivate_write_state mem a r) as Hs.
    destruct (Z.eqb_spec r (region_of a)) as [->|Hne].
    + apply region_state_parts in Hs. destruct Hs as (_ & _ & _ & Hm).
      rewrite Hm, mask_clear_testbit in H by lia.
      left. apply andb_prop in H. tauto.
    + apply region_state_eq in Hs. destruct Hs as (_ & _ & _ & Hm).
      rewrite Hm in H. auto.
Qed.

(** A mask bit found set after a run was set before it or by an
    activation of the run. *)
Lemma table_run_mask_bit (E : env) (ops : list table_op) :
  forall (mem : memory) (r k : Z),
    k = 0 \/ k = 1 ->
    Z.testbit (bp_checks (table_run E mem ops) r) k = true ->
    Z.testbit (bp_checks mem r) k = true \/
    exists op, In op ops /\ activates k r op.
Proof.
  induction ops as [|op ops IH]; intros mem r k Hk H;
    cbn [table_run fold_left In] in *.
  - auto.
  - apply IH in H; [|assumption]. destruct H as [H|(op' & Hin & Hact)].
    + apply table_step_mask_bit in H; [|assumption].
      destruct H as [H|H]; [auto|]. right. exists op. auto.
    + right. exists op'. auto.
Qed.

Lemma fold_apply_mem_mapping_mask (E : env) (mappings : list mem_mapping) :
  forall (mem : memory) (r : Z),
    bp_checks (fold_left (apply_mem_mapping E) mappings mem) r =
    bp_checks mem r.
Proof.
  induction mappings as [|m ms IH]; intros mem r; cbn [fold_left].
  - reflexivity.
  - now rewrite IH, apply_mem_mapping_mask.
Qed.

(** [init_memory] of a DBG build leaves every mask clear. *)
Lemma init_memory_mask (E : env) (mem : memory) (mappings : list mem_mapping)
    (base_ptr : Z) (dbg : mem_handler) (r : Z) :
  DBG E = true -> 0 <= r < 0x10000 ->
  bp_checks (init_memory E mem mappings base_ptr dbg) r = 0.
Proof.
  intros HD Hr. unfold init_memory. rewrite fold_apply_mem_mapping_mask, HD.
  cbn [bp_checks set_bp_checks set_dbg_handler set_base].
  destruct (Z.leb_spec 0 r); destruct (Z.ltb_spec r 65536);
    simpl; try reflexivity; lia.
Qed.

(** * Install Mapping *)

(** A covered region whose breakpoint the registry reports enabled. *)
Lemma apply_mem_mapping_intercepted (E : env) (mem : memory)
    (m : mem_mapping) (r : Z) :
  covers m r = true -> breakpoint_enabled E r = true ->
  handlers (apply_mem_mapping E mem m) r = dbg_handler mem /\
  saved_handlers (apply_mem_mapping E mem m) r = handler m /\
  bp_checks (apply_mem_mapping E mem m) r = bp_checks mem r /\
  dbg_handler (apply_mem_mapping E mem m) = dbg_handler mem.
Proof.
  intros Hc Hb. destruct (apply_mem_mapping_state E mem m r) as (H & Hd & _).
  rewrite Hc in H. unfold mapped_state in H. rewrite Hb in H.
  apply region_state_parts in H. tauto.
Qed.

(** A covered region with no enabled breakpoint reported, or any covered
    region of a build without DBG. *)
Lemma apply_mem_mapping_direct (E : env) (mem : memory)
    (m : mem_mapping) (r : Z) :
  covers m r = true -> breakpoint_enabled E r = false ->
  handlers (apply_mem_mapping E mem m) r = handler m /\
  bp_checks (apply_mem_mapping E mem m) r = bp_checks mem r.
Proof.
  intros Hc Hb. destruct (apply_mem_mapping_state E mem m r) as (H & _).
  rewrite Hc in H. unfold mapped_state in H. rewrite Hb in H.
  apply region_state_parts in H. tauto.
Qed.

(** C8. For every mapping [m], [apply_mem_mapping] sets the handler and the
    type tag of every region of the inclusive range [begin >> 16 .. end >> 16]
    (a region only partly inside [begin .. end] included) and leaves every
    other region as it was.  "Sets the handler": the live slot receives
    [m]'s handler, or, in a DBG build whose registry reports an enabled
    breakpoint for the region, the shadow slot receives it and the live
    slot the debug handler.  The type tag exists in DBG builds only.  The
    mask is not written for any region. *)
Theorem apply_mem_mapping_sets_range (E : env) (mem : memory)
    (m : mem_mapping) (r : Z) :
  handlers (apply_mem_mapping E mem m) r =
    (if covers m r
     then if breakpoint_enabled E r then dbg_handler mem else handler m
     else handlers mem r) /\
  saved_handlers (apply_mem_mapping E mem m) r =
    (if covers m r && breakpoint_enabled E r then handler m
     else saved_handlers mem r) /\
  memtype (apply_mem_mapping E mem m) r =
    (if covers m r && DBG E then type m else memtype mem r) /\
  bp_checks (apply_mem_mapping E mem m) r = bp_checks mem r.
Proof.
  destruct (apply_mem_mapping_state E mem m r) as [H _].
  destruct (covers m r); cbn [andb].
  - apply region_state_parts in H. destruct H as (Hh & Hs & Ht & Hm).
    rewrite Hh, Hs, Ht, Hm.
    destruct (breakpoint_enabled E r); destruct (DBG E); auto.
  - apply region_state_eq in H. tauto.
Qed.

(** C9. For every region that Install Mapping installs and for which the
    breakpoint registry reports an enabled breakpoint (DBG build), the new
    handler is stored in the region's shadow slot and the shared debug
    handler in its live slot: the interception stays in place. *)
Theorem apply_mem_mapping_keeps_interception (E : env) (mem : memory)
    (m : mem_mapping) (r : Z) :
  DBG E = true ->
  covers m r = true ->
  lookup_breakpoint E (uint32 (Z.shiftl r 16)) 0x10000
    (M64P_BKP_FLAG_ENABLED E) <> -1 ->
  saved_handlers (apply_mem_mapping E mem m) r = handler m /\
  handlers (apply_mem_mapping E mem m) r =
    dbg_handler (apply_mem_mapping E mem m).
Proof.
  intros HD Hc Hl.
  assert (Hb : breakpoint_enabled E r = true).
  { unfold breakpoint_enabled. rewrite HD. apply Z.eqb_neq in Hl.
    now rewrite Hl. }
  destruct (apply_mem_mapping_intercepted E mem m r Hc Hb)
    as (Hh & Hs & _ & Hd).
  rewrite Hh, Hs, Hd. auto.
Qed.

Lemma apply_mem_mapping_keeps_interception_witness :
  DBG (one_breakpoint 0x80010040) = true /\
  covers ram_mapping 0x8001 = true /\
  lookup_breakpoint (one_breakpoint 0x80010040)
    (uint32 (Z.shiftl 0x8001 16)) 0x10000
    (M64P_BKP_FLAG_ENABLED (one_breakpoint 0x80010040)) <> -1 /\
  (saved_handlers
     (apply_mem_mapping (one_breakpoint 0x80010040)
        (set_dbg_handler zero_memory debug_handler) ram_mapping) 0x8001
   = handler ram_mapping /\
   handlers
     (apply_mem_mapping (one_breakpoint 0x80010040)
        (set_dbg_handler zero_memory debug_handler) ram_mapping) 0x8001
   = dbg_handler
       (apply_mem_mapping (one_breakpoint 0x80010040)
          (set_dbg_handler zero_memory debug_handler) ram_mapping)).
Proof.
  split; [reflexivity|]. split; [reflexivity|]. split; [discriminate|].
  apply (apply_mem_mapping_keeps_interception (one_breakpoint 0x80010040)
           (set_dbg_handler zero_memory debug_handler) ram_mapping 0x8001);
    [reflexivity | reflexivity | discriminate].
Defined.

(** On a 32-bit address the table lookup and the trampolines name the same
    region. *)
Lemma shiftr_region_of (a : Z) :
  0 <= a < 2 ^ 32 -> Z.shiftr a 16 = region_of a.
Proof.
  intros Ha. unfold region_of. symmetry. apply uint16_small.
  rewrite Z.shiftr_div_pow2 by lia. split.
  - apply Z.div_pos; lia.
  - apply Z.div_lt_upper_bound; lia.
Qed.

(** Every address of a covered region dispatches to [m]'s handler: directly
    when no enabled breakpoint is reported for the region. *)
Lemma apply_mem_mapping_dispatch (E : env) (mem : memory) (m : mem_mapping)
    (a value mask : Z) :
  0 <= a < 2 ^ 32 ->
  covers m (region_of a) = true ->
  breakpoint_enabled E (region_of a) = false ->
  dispatch_read (apply_mem_mapping E mem m) a = mem_read32 (handler m) a /\
  dispatch_write (apply_mem_mapping E mem m) a value mask
    = mem_write32 (handler m) a value mask.
Proof.
  intros Ha Hc Hb. unfold dispatch_read, dispatch_write, mem_get_handler.
  rewrite shiftr_region_of by assumption.
  destruct (apply_mem_mapping_direct E mem m (region_of a) Hc Hb) as [-> _].
  auto.
Qed.

(** * The trampolines *)

Lemma read_with_bp_checks_forwards (E : env) (mem : memory) (pc a : Z) :
  DBG E = true ->
  read32 (saved_handlers mem (region_of a)) <> 0 ->
  read_with_bp_checks E mem pc a =
  Some ((if Z.testbit (bp_checks mem (region_of a)) 0
         then [read_report E pc a] else []) ++
        [ev_read32 (read32 (saved_handlers mem (region_of a)))
                   (opaque (saved_handlers mem (region_of a))) a]).
Proof.
  intros HD Hr. unfold read_with_bp_checks, mem_read32, read_report.
  rewrite HD, read_bit_test, negb_involutive.
  apply Z.eqb_neq in Hr. rewrite Hr. reflexivity.
Qed.

Lemma write_with_bp_checks_forwards (E : env) (mem : memory)
    (pc a value mask : Z) :
  DBG E = true ->
  write32 (saved_handlers mem (region_of a)) <> 0 ->
  write_with_bp_checks E mem pc a value mask =
  Some ((if Z.testbit (bp_checks mem (region_of a)) 1
         then [write_report E pc a] else []) ++
        [ev_write32 (write32 (saved_handlers mem (region_of a)))
                    (opaque (saved_handlers mem (region_of a)))
                    a value mask]).
Proof.
  intros HD Hr. unfold write_with_bp_checks, mem_write32, write_report.
  rewrite HD, write_bit_test, negb_involutive.
  apply Z.eqb_neq in Hr. rewrite Hr. reflexivity.
Qed.

(** C10. Install Mapping never modifies the breakpoint-active mask.  In
    any state reached from [init_memory] by installs and debugger
    operations, when a mapping is installed over a region whose breakpoint
    the registry reports enabled, the live slot receives the debug handler
    and the mask of every region keeps its value; the trampolines then
    forward every access of the region to the shadow handler (the newly
    installed one) and report to the debugger only for an access kind whose
    mask bit is set, and a set bit was set by an Activate Breakpoint call
    of that kind on that region. *)
Theorem install_mapping_keeps_mask (E : env) (mem0 : memory)
    (mappings : list mem_mapping) (base_ptr : Z) (dbg : mem_handler)
    (ops : list table_op) (m : mem_mapping) (r pc a value mask : Z) :
  DBG E = true ->
  covers m r = true ->
  breakpoint_enabled E r = true ->
  region_of a = r ->
  read32 (handler m) <> 0 ->
  write32 (handler m) <> 0 ->
  let mem := table_run E (init_memory E mem0 mappings base_ptr dbg) ops in
  let mem' := apply_mem_mapping E mem m in
  (forall r', bp_checks mem' r' = bp_checks mem r') /\
  handlers mem' r = dbg_handler mem' /\
  read_with_bp_checks E mem' pc a =
    Some ((if Z.testbit (bp_checks mem r) 0
           then [read_report E pc a] else []) ++
          [ev_read32 (read32 (handler m)) (opaque (handler m)) a]) /\
  write_with_bp_checks E mem' pc a value mask =
    Some ((if Z.testbit (bp_checks mem r) 1
           then [write_report E pc a] else []) ++
          [ev_write32 (write32 (handler m)) (opaque (handler m))
                      a value mask]) /\
  (Z.testbit (bp_checks mem r) 0 = true ->
   exists a', In (Debugger (ActivateRead a')) ops /\ region_of a' = r) /\
  (Z.testbit (bp_checks mem r) 1 = true ->
   exists a', In (Debugger (ActivateWrite a')) ops /\ region_of a' = r).
Proof.
  intros HD Hc Hb Ha Hr Hw mem mem'.
  destruct (apply_mem_mapping_intercepted E mem m r Hc Hb)
    as (Hh & Hs & Hm & Hd).
  fold mem' in Hd, Hh, Hs, Hm.
  assert (Hrange : 0 <= r < 0x10000) by (subst r; apply region_of_range).
  split; [intros r'; apply apply_mem_mapping_mask|].
  split; [now rewrite Hh, Hd|].
  split.
  { rewrite read_with_bp_checks_forwards
      by (rewrite ?Ha, ?Hs; assumption).
    now rewrite Ha, Hs, Hm. }
  split.
  { rewrite write_with_bp_checks_forwards
      by (rewrite ?Ha, ?Hs; assumption).
    now rewrite Ha, Hs, Hm. }
  split; intros Hbit.
  - destruct (table_run_mask_bit E ops _ r 0 (or_introl eq_refl) Hbit)
      as [H0|(op & Hin & Hact)].
    + rewrite init_memory_mask in H0 by assumption. discriminate.
    + destruct op as [?|[a'|a'|a'|a']]; cbn [activates] in Hact;
        try contradiction; try (destruct Hact; discriminate).
      exists a'. tauto.
  - destruct (table_run_mask_bit E ops _ r 1 (or_intror eq_refl) Hbit)
      as [H0|(op & Hin & Hact)].
    + rewrite init_memory_mask in H0 by assumption. discriminate.
    + destruct op as [?|[a'|a'|a'|a']]; cbn [activates] in Hact;
        try contradiction; try (destruct Hact; discriminate).
      exists a'. tauto.
Qed.

Lemma install_mapping_keeps_mask_witness :
  DBG (one_breakpoint 0x80010040) = true /\
  covers ram_mapping 0x8001 = true /\
  breakpoint_enabled (one_breakpoint 0x80010040) 0x8001 = true /\
  region_of 0x80010040 = 0x8001 /\
  read32 (handler ram_mapping) <> 0 /\
  write32 (handler ram_mapping) <> 0 /\
  read_with_bp_checks (one_breakpoint 0x80010040)
    (apply_mem_mapping (one_breakpoint 0x80010040)
       (table_run (one_breakpoint 0x80010040)
          (init_memory (one_breakpoint 0x80010040) zero_memory [] 0
             debug_handler)
          [Debugger (ActivateWrite 0x80010000)])
       ram_mapping)
    0x80000400 0x80010040
  = Some [ev_read32 0x401000 0x7000 0x80010040] /\
  write_with_bp_checks (one_breakpoint 0x80010040)
    (apply_mem_mapping (one_breakpoint 0x80010040)
       (table_run (one_breakpoint 0x80010040)
          (init_memory (one_breakpoint 0x80010040) zero_memory [] 0
             debug_handler)
          [Debugger (ActivateWrite 0x80010000)])
       ram_mapping)
    0x80000400 0x80010040 0xcafe 0xffffffff
  = Some [ev_check_breakpoints_on_mem_access 0x800003fc 0x80010040 4 0x11;
          ev_write32 0x401100 0x7000 0x80010040 0xcafe 0xffffffff].
Proof.
  split; [reflexivity|]. split; [reflexivity|]. split; [reflexivity|].
  split; [reflexivity|]. split; [discriminate|]. split; [discriminate|].
  pose proof (install_mapping_keeps_mask (one_breakpoint 0x80010040)
                zero_memory [] 0 debug_handler
                [Debugger (ActivateWrite 0x80010000)] ram_mapping
                0x8001 0x80000400 0x80010040 0xcafe 0xffffffff
                eq_refl eq_refl eq_refl eq_refl
                ltac:(discriminate) ltac:(discriminate)) as H.
  cbv zeta in H. destruct H as (_ & _ & Hr & Hw & _). split.
  - exact Hr.
  - exact Hw.
Defined.

(** * Initialize *)

Lemma init_memory_nil_state (E : env) (mem : memory) (base_ptr : Z)
    (dbg : mem_handler) :
  handlers (init_memory E mem [] base_ptr dbg) = handlers mem /\
  saved_handlers (init_memory E mem [] base_ptr dbg) = saved_handlers mem /\
  memtype (init_memory E mem [] base_ptr dbg) = memtype mem /\
  base (init_memory E mem [] base_ptr dbg) = base_ptr.
Proof. unfold init_memory. destruct (DBG E); cbn; auto. Qed.

(** C2, as stated, fails: [init_memory] with an empty mapping list does not
    put one default handler into the slots.  Whatever handler the claim
    takes as the "unmapped" one, the slots after the call hold what they
    held before it, the null handler for a table in zeroed storage and the
    RAM handler for a table used before. *)
Lemma init_memory_installs_no_default :
  ~ exists (E : env) (unmapped : mem_handler),
      forall (mem : memory) (base_ptr : Z) (dbg : mem_handler) (r : Z),
        0 <= r < 0x10000 ->
        handlers (init_memory E mem [] base_ptr dbg) r = unmapped.
Proof.
  intros (E & u & H).
  pose proof (H zero_memory 0 debug_handler 0x8000 ltac:(lia)) as H0.
  pose proof (H used_memory 0 debug_handler 0x8000 ltac:(lia)) as H1.
  destruct (init_memory_nil_state E zero_memory 0 debug_handler) as [E0 _].
  destruct (init_memory_nil_state E used_memory 0 debug_handler) as [E1 _].
  rewrite E0 in H0. rewrite E1 in H1. rewrite <- H0 in H1.
  vm_compute in H1. discriminate.
Qed.

(** On a table in zeroed storage the slots stay null after the call, and a
    dispatch goes through a null entry point. *)
Example init_memory_zeroed_dispatch :
  handlers (init_memory (no_breakpoints true) zero_memory [] 0 debug_handler)
           0x8000 = null_handler /\
  dispatch_read
    (init_memory (no_breakpoints true) zero_memory [] 0 debug_handler)
    0x80000000 = None /\
  dispatch_write
    (init_memory (no_breakpoints true) used_memory [] 0 debug_handler)
    0x80000000 0xcafe 0xffffffff
  = Some [ev_write32 0x401100 0x7000 0x80000000 0xcafe 0xffffffff].
Proof. repeat split; vm_compute; reflexivity. Qed.

(** C2, amended. [init_memory] with an empty mapping list writes no handler:
    every live slot, shadow slot and type tag is what it was before the
    call, so a dispatch invokes whatever handler the slot already held (a
    default "unmapped" handler exists only if a mapping installs it).  The
    call stores [base]; a DBG build also clears the 0x10000 masks and
    stores the debug handler. *)
Theorem init_memory_empty_keeps_slots (E : env) (mem : memory)
    (base_ptr : Z) (dbg : mem_handler) (r a value mask : Z) :
  handlers (init_memory E mem [] base_ptr dbg) r = handlers mem r /\
  saved_handlers (init_memory E mem [] base_ptr dbg) r
    = saved_handlers mem r /\
  memtype (init_memory E mem [] base_ptr dbg) r = memtype mem r /\
  dispatch_read (init_memory E mem [] base_ptr dbg) a = dispatch_read mem a /\
  dispatch_write (init_memory E mem [] base_ptr dbg) a value mask
    = dispatch_write mem a value mask /\
  base (init_memory E mem [] base_ptr dbg) = base_ptr /\
  dbg_handler (init_memory E mem [] base_ptr dbg)
    = (if DBG E then dbg else dbg_handler mem) /\
  bp_checks (init_memory E mem [] base_ptr dbg) r
    = (if DBG E && ((0 <=? r) && (r <? 0x10000)) then 0
       else bp_checks mem r).
Proof.
  destruct (init_memory_nil_state E mem base_ptr dbg) as (Hh & Hs & Ht & Hb).
  unfold dispatch_read, dispatch_write, mem_get_handler.
  rewrite Hh, Hs, Ht, Hb. repeat split.
  - unfold init_memory. now destruct (DBG E).
  - unfold init_memory. now destruct (DBG E).
Qed.

(** * Deactivating what is not active *)

Lemma uint8_testbit_full (x n : Z) :
  0 <= n -> Z.testbit (uint8 x) n = (n <? 8) && Z.testbit x n.
Proof.
  intros Hn. unfold uint8. destruct (Z.ltb_spec n 8).
  - now rewrite Z.mod_pow2_bits_low by lia.
  - now rewrite Z.mod_pow2_bits_high by lia.
Qed.

(** Clearing a bit that is clear leaves an [unsigned char] as it is. *)
Lemma mask_clear_absent (b bit : Z) :
  0 <= b < 256 -> Z.land b bit = 0 ->
  uint8 (Z.land b (Z.lnot bit)) = b.
Proof.
  intros Hb Hbit.
  rewrite <- (Z.mod_small b (2 ^ 8)) at 2 by (change (2 ^ 8) with 256; lia).
  fold (uint8 b). apply Z.bits_inj'. intros n Hn.
  rewrite !uint8_testbit_full, Z.land_spec, Z.lnot_spec by assumption.
  assert (Hz : Z.testbit b n && Z.testbit bit n = false).
  { rewrite <- Z.land_spec, Hbit. apply Z.bits_0. }
  destruct (n <? 8), (Z.testbit b n), (Z.testbit bit n);
    simpl in *; congruence.
Qed.

Lemma bp_inactive_read_clear (b : Z) :
  bp_inactive b = true -> Z.land b BP_CHECK_READ = 0.
Proof.
  rewrite bp_inactive_bits. intros H. apply andb_prop in H.
  destruct H as [H _]. apply Z.eqb_eq. now rewrite read_bit_test.
Qed.

Lemma bp_inactive_write_clear (b : Z) :
  bp_inactive b = true -> Z.land b BP_CHECK_WRITE = 0.
Proof.
  rewrite bp_inactive_bits. intros H. apply andb_prop in H.
  destruct H as [_ H]. apply Z.eqb_eq. now rewrite write_bit_test.
Qed.

(** What [deactivate_memory_break_read] does to a region with neither bit
    set: the mask and the shadow keep their values, and the live slot
    receives the shadow. *)
Lemma deactivate_read_inactive (mem : memory) (a : Z) :
  0 <= bp_checks mem (region_of a) < 256 ->
  bp_inactive (bp_checks mem (region_of a)) = true ->
  region_state (deactivate_memory_break_read mem a) (region_of a) =
  (saved_handlers mem (region_of a), saved_handlers mem (region_of a),
   memtype mem (region_of a), bp_checks mem (region_of a)).
Proof.
  intros Hb Hi. rewrite deactivate_read_state, Z.eqb_refl.
  unfold deactivated_state.
  rewrite mask_clear_absent by auto using bp_inactive_read_clear.
  now rewrite Hi.
Qed.

Lemma deactivate_write_inactive (mem : memory) (a : Z) :
  0 <= bp_checks mem (region_of a) < 256 ->
  bp_inactive (bp_checks mem (region_of a)) = true ->
  region_state (deactivate_memory_break_write mem a) (region_of a) =
  (saved_handlers mem (region_of a), saved_handlers mem (region_of a),
   memtype mem (region_of a), bp_checks mem (region_of a)).
Proof.
  intros Hb Hi. rewrite deactivate_write_state, Z.eqb_refl.
  unfold deactivated_state.
  rewrite mask_clear_absent by auto using bp_inactive_write_clear.
  now rewrite Hi.
Qed.

(** C1, on the code.  After device setup mapped RAM over region 0x8000 and
    no breakpoint was ever activated, the region's mask has neither bit
    set.  [deactivate_memory_break_read] (and likewise
    [deactivate_memory_break_write]) keeps the mask and the shadow, but
    copies the never-written shadow into the live slot: the RAM handler is
    gone and the next dispatch goes through a null entry point. *)
Theorem deactivate_inactive_overwrites_live_slot :
  bp_inactive (bp_checks used_memory (region_of 0x80000000)) = true /\
  handlers used_memory 0x8000 = ram_handler /\
  dispatch_read used_memory 0x80000000
    = Some [ev_read32 0x401000 0x7000 0x80000000] /\
  bp_checks (deactivate_memory_break_read used_memory 0x80000000) 0x8000
    = bp_checks used_memory 0x8000 /\
  saved_handlers (deactivate_memory_break_read used_memory 0x80000000) 0x8000
    = saved_handlers used_memory 0x8000 /\
  handlers (deactivate_memory_break_read used_memory 0x80000000) 0x8000
    = null_handler /\
  dispatch_read (deactivate_memory_break_read used_memory 0x80000000)
    0x80000000 = None /\
  handlers (deactivate_memory_break_write used_memory 0x80000000) 0x8000
    = null_handler /\
  dispatch_read (deactivate_memory_break_write used_memory 0x80000000)
    0x80000000 = None.
Proof. repeat split; vm_compute; reflexivity. Qed.

(** * The overlay invariant *)

(** C6, on the code.  From the all-inactive state after device setup, the
    one-step run [DeactivateRead] leaves region 0x8000 with a zero mask and
    a live slot that no longer holds the real handler.  The run
    [DeactivateWrite; ActivateRead] leaves it with a nonzero mask, the
    debug handler live, and a shadow that is not the handler that was live
    before any interception. *)
Theorem overlay_invariant_broken_by_deactivate :
  (forall r, 0 <= r < 0x10000 -> bp_checks used_memory r = 0) /\
  handlers used_memory 0x8000 = ram_handler /\
  bp_checks (bp_run used_memory [DeactivateRead 0x80000000]) 0x8000 = 0 /\
  handlers (bp_run used_memory [DeactivateRead 0x80000000]) 0x8000
    <> handlers used_memory 0x8000 /\
  bp_checks (bp_run used_memory
               [DeactivateWrite 0x80000000; ActivateRead 0x80000000]) 0x8000
    = 1 /\
  handlers (bp_run used_memory
              [DeactivateWrite 0x80000000; ActivateRead 0x80000000]) 0x8000
    = dbg_handler used_memory /\
  saved_handlers (bp_run used_memory
                    [DeactivateWrite 0x80000000; ActivateRead 0x80000000])
                 0x8000
    <> handlers used_memory 0x8000.
Proof.
  split.
  { intros r Hr. unfold used_memory. now apply init_memory_mask. }
  repeat split; vm_compute; congruence.
Qed.

(** * The round trip *)

(** C7, on the code.  The RAM mapping is installed on a freshly initialised
    table while the registry holds an enabled breakpoint in region 0x8001,
    which the mapping covers: the live slot holds the debug handler, the
    shadow the RAM handler, the mask is clear, and the read trampoline
    forwards to the RAM handler.  Activate
    Breakpoint Read then finds the mask clear and saves the live slot, the
    debug handler itself, over the shadow; Deactivate Breakpoint Read
    restores that.  The RAM handler is in neither slot any more, and the
    trampoline forwards to the debug handler's own entry point. *)
Theorem round_trip_loses_handler :
  intercepted_memory =
    apply_mem_mapping (one_breakpoint 0x80010040)
      (init_memory (one_breakpoint 0x80010040) zero_memory [] 0 debug_handler)
      ram_mapping /\
  covers ram_mapping 0x8001 = true /\
  handlers intercepted_memory 0x8001 = debug_handler /\
  saved_handlers intercepted_memory 0x8001 = handler ram_mapping /\
  bp_checks intercepted_memory 0x8001 = 0 /\
  read_with_bp_checks (one_breakpoint 0x80010040) intercepted_memory
    0x80000400 0x80010040
    = Some [ev_read32 (read32 ram_handler) (opaque ram_handler) 0x80010040] /\
  handlers
    (deactivate_memory_break_read
       (activate_memory_break_read intercepted_memory 0x80010040) 0x80010040)
    0x8001 = debug_handler /\
  saved_handlers
    (deactivate_memory_break_read
       (activate_memory_break_read intercepted_memory 0x80010040) 0x80010040)
    0x8001 = debug_handler /\
  read_with_bp_checks (one_breakpoint 0x80010040)
    (deactivate_memory_break_read
       (activate_memory_break_read intercepted_memory 0x80010040) 0x80010040)
    0x80000400 0x80010040
    = Some [ev_read32 (read32 debug_handler) (opaque debug_handler)
                      0x80010040].
Proof. repeat split; vm_compute; reflexivity. Qed.

(** * Allocate *)

(** C3, as stated, fails.  When the fourth request is refused the three
    blocks granted before it are still allocated on return, and the value
    returned is the one returned when the first request is refused. *)
Lemma init_mem_base_keeps_partial_allocations :
  (~ exists P : platform,
       releases_partial_allocations P null_base fourth_fails) /\
  (forall P : platform,
     fst (fst (init_mem_base P null_base fourth_fails)) = 1 /\
     fst (fst (init_mem_base P null_base first_fails)) = 1 /\
     released (snd (init_mem_base P null_base fourth_fails)) = [] /\
     map block_ptr (live (snd (init_mem_base P null_base fourth_fails)))
       = [0x30000; 0x20000; 0x10000]).
Proof.
  split.
  - intros (P & H). unfold releases_partial_allocations in H.
    cbn in H. specialize (H ltac:(discriminate)).
    eapply H. left. reflexivity.
  - intros P. cbn. auto.
Qed.

(** C3, amended.  If the first requests of a call are granted and the
    request for buffer [b] is refused, [init_mem_base] returns 1 at once:
    the blocks granted before stay allocated and stay in their fields of
    the [MemoryBase] (nothing is released; [release_mem_base] is what frees
    them), the field of [b] is null, the later fields are not written, no
    later request is made, and one error diagnostic names [b].  The
    returned value is 1 whichever buffer failed. *)
Theorem init_mem_base_failure (P : platform) (mb : MemoryBase) (h : host)
    (got : list Z) (b : buffer) (rest : list (option Z)) :
  answers h = map Some got ++ None :: rest ->
  List.length got = buffer_index b ->
  init_mem_base P mb h =
  (1,
   set_buffer_ptr (store_granted mb got) b 0,
   mk_host rest (rev (granted P got) ++ live h) (released h)
           (messages h ++ [(M64MSG_ERROR, failure_message b)])).
Proof.
  intros Ha Hl. destruct h as [ans lv rel msgs]. cbn [answers] in Ha.
  subst ans.
  destruct b; cbn [buffer_index] in Hl;
    repeat (destruct got as [|? got]; try discriminate Hl);
    reflexivity.
Qed.

Lemma init_mem_base_failure_witness :
  answers fourth_fails = map Some [0x10000; 0x20000; 0x30000] ++ None :: [] /\
  List.length [0x10000; 0x20000; 0x30000] = buffer_index Ddrom /\
  init_mem_base example_platform null_base fourth_fails =
  (1,
   mk_MemoryBase 0x10000 0x20000 0x30000 0 0,
   mk_host []
     [mk_block 0x30000 0x1000 0x2000; mk_block 0x20000 0x1000 0x4000000;
      mk_block 0x10000 0x10000 0x0bf00000]
     []
     [(M64MSG_ERROR, "Failed to allocate ddrom"%string)]).
Proof.
  split; [reflexivity|]. split; [reflexivity|].
  exact (init_mem_base_failure example_platform null_base fourth_fails
           [0x10000; 0x20000; 0x30000] Ddrom [] eq_refl eq_refl).
Defined.

(** When all five requests are granted the call returns 0 with the five
    pointers stored. *)
Lemma init_mem_base_success (P : platform) (mb : MemoryBase) (h : host)
    (p1 p2 p3 p4 p5 : Z) (rest : list (option Z)) :
  answers h = map Some [p1; p2; p3; p4; p5] ++ rest ->
  init_mem_base P mb h =
  (0, mk_MemoryBase p1 p2 p3 p4 p5,
   mk_host rest (rev (granted P [p1; p2; p3; p4; p5]) ++ live h)
           (released h) (messages h)).
Proof.
  intros Ha. destruct h as [ans lv rel msgs]. cbn [answers] in Ha.
  subst ans. reflexivity.
Qed.

(** * Resolve *)

(** Every offset a rule produces is a 32-bit value. *)
Lemma Resolve_offset_range (P : platform) (a : Z) (b : buffer) (ofs : Z) :
  Resolve P a = Some (b, ofs) -> 0 <= ofs < 2 ^ 32.
Proof.
  unfold Resolve, resolve_rules. cbn [first_match applies target].
  repeat match goal with
         | |- context [if ?c then _ else _] => destruct c
         end;
    intros H; inversion H; subst; apply uint32_range.
Qed.

(** C5. For every address, [mem_base_u32] selects its target by the six
    rules of section 4.2 read top to bottom, the first match winning:
    (1) below the RDRAM register boundary, the RDRAM buffer; (2) at or
    above the cartridge ROM base, the boot buffer inside the boot window
    and the cartridge buffer otherwise; (3) the DD ROM window, its buffer;
    (4) the RSP memory window, its buffer; (5) at or above the second RDRAM
    base, the RDRAM buffer past the register boundary; (6) otherwise
    NULL. *)
Theorem mem_base_u32_follows_rules (P : platform) (mb : MemoryBase) (a : Z) :
  mem_base_u32 P mb a = pointer_of mb (Resolve P a).
Proof.
  unfold mem_base_u32, Resolve, resolve_rules, in_window.
  cbn [first_match applies target]. rewrite !Z.geb_leb.
  destruct (a <? MM_RDRAM_REGS P); [reflexivity|].
  destruct (MM_CART_ROM P <=? a).
  { destruct (Z.land a 0xfff00000 =? MM_PIF_MEM P); reflexivity. }
  destruct (Z.land a 0xfe000000 =? MM_DD_ROM P); [reflexivity|].
  destruct (Z.land a 0xffffe000 =? MM_RSP_MEM P); [reflexivity|].
  destruct (MM_RDRAM_DRAM2 P <=? a); reflexivity.
Qed.

(** The rules at the window boundaries of the example platform. *)
Example Resolve_boundaries :
  map (Resolve example_platform)
      [0x03efffff; 0x03f00000; 0x04000000; 0x04001fff; 0x04002000;
       0x05ffffff; 0x06000000; 0x07ffffff; 0x08000000; 0x0fffffff;
       0x10000000; 0x1fbfffff; 0x1fc00000; 0x1fcfffff; 0x1fd00000]
  = [Some (Rdram, 0x03efffff); None; Some (Rspmem, 0); Some (Rspmem, 0x1fff);
     None; None; Some (Ddrom, 0); Some (Ddrom, 0x1ffffff);
     Some (Rdram, 0x03f00000); Some (Rdram, 0x0befffff);
     Some (Cartrom, 0); Some (Cartrom, 0x0fbfffff); Some (Pifmem, 0);
     Some (Pifmem, 0xfffff); Some (Cartrom, 0x0fd00000)].
Proof. vm_compute. reflexivity. Qed.

(** On any platform whose cartridge buffer ends below the top of the
    address space, the topmost address resolves past the end of that
    buffer. *)
Lemma mem_base_u32_top (P : platform) (mb : MemoryBase) :
  MM_RDRAM_REGS P <= 0xffffffff ->
  0 <= MM_CART_ROM P <= 0xffffffff ->
  MM_PIF_MEM P <> 0xfff00000 ->
  mem_base_u32 P mb 0xffffffff = cartrom mb + (0xffffffff - MM_CART_ROM P).
Proof.
  intros Hr Hc Hp. unfold mem_base_u32.
  destruct (Z.ltb_spec 0xffffffff (MM_RDRAM_REGS P)); [lia|].
  destruct (Z.geb_spec 0xffffffff (MM_CART_ROM P)); [|lia].
  change (Z.land 0xffffffff 0xfff00000) with 0xfff00000.
  destruct (Z.eqb_spec 0xfff00000 (MM_PIF_MEM P)); [congruence|].
  unfold uint32. rewrite Z.mod_small by lia. reflexivity.
Qed.

(** C4, as stated, fails.  On no platform with the console's cartridge
    window is every resolved pointer within a buffer: address 0xffffffff is
    at or above the cartridge ROM base and outside the boot window, so it
    resolves to the cartridge buffer plus 0xefffffff, far past the 64 MiB
    of that buffer and inside no other one. *)
Lemma mem_base_u32_leaves_buffer :
  ~ exists P : platform,
      console_cartridge_window P /\
      forall a, 0 <= a < 2 ^ 32 -> resolves_within P example_base a.
Proof.
  intros (P & (Hr & Hc & Hp & Hs) & H).
  specialize (H 0xffffffff ltac:(lia)). unfold resolves_within in H.
  rewrite mem_base_u32_top in H by (rewrite ?Hr, ?Hc, ?Hp; lia || discriminate).
  rewrite Hc in H. cbn [cartrom example_base] in H.
  destruct H as [H|(b & Hw & _)]; [discriminate|].
  unfold within in Hw.
  destruct b; cbn [buffer_ptr buffer_size example_base rdram cartrom rspmem
                   ddrom pifmem] in Hw; try lia.
Qed.

(** C4, amended.  For every address, [mem_base_u32] returns NULL when no
    rule matches, and otherwise the base pointer of the one buffer its rule
    selects plus a 32-bit offset (the address minus the window base, plus
    the register boundary for rule 5).  No bound is checked: the pointer
    lies within that buffer exactly when the offset is below the buffer's
    size. *)
Theorem mem_base_u32_offset (P : platform) (mb : MemoryBase) (a : Z) :
  match Resolve P a with
  | None => mem_base_u32 P mb a = 0
  | Some (b, ofs) =>
      mem_base_u32 P mb a = buffer_ptr mb b + ofs /\
      0 <= ofs < 2 ^ 32 /\
      (within P mb b (mem_base_u32 P mb a) <-> ofs < buffer_size P b)
  end.
Proof.
  destruct (Resolve P a) as [[b ofs]|] eqn:HR.
  - pose proof (Resolve_offset_range P a b ofs HR) as Ho.
    assert (Hp : mem_base_u32 P mb a = buffer_ptr mb b + ofs).
    { revert HR. unfold mem_base_u32, Resolve, resolve_rules, in_window.
      cbn [first_match applies target]. rewrite !Z.geb_leb.
      repeat match goal with
             | |- context [if ?c then _ else _] => destruct c
             end;
        intros H; inversion H; subst; reflexivity. }
    split; [assumption|]. split; [assumption|].
    rewrite Hp. unfold within. lia.
  - revert HR. unfold mem_base_u32, Resolve, resolve_rules, in_window.
    cbn [first_match applies target]. rewrite !Z.geb_leb.
    repeat match goal with
           | |- context [if ?c then _ else _] => destruct c
           end;
      intros H; try discriminate H; reflexivity.
Qed.

(** * Where the overlay invariant and the round trip do hold *)

(** Setting a clear bit and clearing it again gives the mask back. *)
Lemma mask_set_then_clear (b k : Z) :
  0 <= b < 256 -> 0 <= k -> Z.testbit b k = false ->
  uint8 (Z.land (uint8 (Z.lor b (2 ^ k))) (Z.lnot (2 ^ k))) = b.
Proof.
  intros Hb Hk Hbit.
  rewrite <- (Z.mod_small b (2 ^ 8)) at 2 by (change (2 ^ 8) with 256; lia).
  fold (uint8 b). apply Z.bits_inj'. intros n Hn.
  rewrite !uint8_testbit_full, Z.land_spec, Z.lnot_spec by assumption.
  rewrite uint8_testbit_full, Z.lor_spec, Z.pow2_bits_eqb by assumption.
  destruct (Z.eqb_spec k n) as [->|Hne].
  - rewrite Hbit. now destruct (n <? 8).
  - destruct (n <? 8), (Z.testbit b n); reflexivity.
Qed.

(** Activate Breakpoint Read followed by Deactivate Breakpoint Read on a
    region with neither bit set puts the live handler and the mask back;
    the shadow is left holding a copy of the live handler. *)
Lemma round_trip_restores (mem : memory) (a : Z) :
  0 <= bp_checks mem (region_of a) < 256 ->
  bp_inactive (bp_checks mem (region_of a)) = true ->
  region_state
    (deactivate_memory_break_read (activate_memory_break_read mem a) a)
    (region_of a) =
  (handlers mem (region_of a), handlers mem (region_of a),
   memtype mem (region_of a), bp_checks mem (region_of a)).
Proof.
  intros Hb Hi. rewrite deactivate_read_state, Z.eqb_refl.
  pose proof (activate_read_state mem a (region_of a)) as H.
  rewrite Z.eqb_refl in H. unfold activated_state in H. rewrite Hi in H.
  apply region_state_parts in H. destruct H as (Hh & Hs & Ht & Hm).
  unfold deactivated_state. rewrite Hh, Hs, Ht, Hm.
  change BP_CHECK_READ with (2 ^ 0).
  rewrite mask_set_then_clear; try lia.
  - now rewrite Hi.
  - rewrite bp_inactive_bits in Hi. apply andb_prop in Hi.
    destruct Hi as [Hi _]. now apply negb_true_iff in Hi.
Qed.

(** X6. The round trip where the registry and the mask agree that the
    region is not intercepted: after [apply_mem_mapping] of a mapping [m]
    covering the region, the live slot holds [m]'s handler, and it holds it
    again after Activate Breakpoint Read followed by Deactivate Breakpoint
    Read. *)
Lemma install_round_trip_restores (E : env) (mem : memory) (m : mem_mapping)
    (a : Z) :
  covers m (region_of a) = true ->
  breakpoint_enabled E (region_of a) = false ->
  0 <= bp_checks mem (region_of a) < 256 ->
  bp_inactive (bp_checks mem (region_of a)) = true ->
  handlers (apply_mem_mapping E mem m) (region_of a) = handler m /\
  handlers
    (deactivate_memory_break_read
       (activate_memory_break_read (apply_mem_mapping E mem m) a) a)
    (region_of a) = handler m.
Proof.
  intros Hc He Hb Hi.
  destruct (apply_mem_mapping_direct E mem m (region_of a) Hc He)
    as (Hh & Hm).
  split; [assumption|].
  pose proof (round_trip_restores (apply_mem_mapping E mem m) a) as H.
  rewrite Hm in H. specialize (H Hb Hi).
  apply region_state_parts in H. destruct H as (H & _). now rewrite H.
Qed.

(** One debugger operation keeps the overlay invariant of every region,
    provided a deactivation addresses a region whose mask is nonzero. *)
Lemma bp_step_overlay_invariant (real : Z -> mem_handler) (mem : memory)
    (op : bp_op) :
  (forall r, overlay_invariant real mem r) ->
  deactivations_hit_active mem [op] ->
  forall r, overlay_invariant real (bp_step mem op) r.
Proof.
  intros Hinv [Hguard _] r. unfold overlay_invariant.
  rewrite bp_step_dbg_handler.
  assert (Hcase :
    forall a bit st,
      (bit = BP_CHECK_READ \/ bit = BP_CHECK_WRITE) ->
      (st = activated_state mem r bit \/
       st = deactivated_state mem r bit /\
       bp_inactive (bp_checks mem (region_of a)) = false) ->
      r = region_of a ->
      overlay_holds (real r) (dbg_handler mem) st).
  { intros a bit st Hbit Hst ->. specialize (Hinv (region_of a)).
    unfold overlay_invariant, overlay_holds, region_state in Hinv.
    destruct Hinv as [Hm Hinv].
    assert (Hb : bp_checks mem (region_of a) = 0 \/
                 bp_checks mem (region_of a) = 1 \/
                 bp_checks mem (region_of a) = 2 \/
                 bp_checks mem (region_of a) = 3) by lia.
    unfold activated_state, deactivated_state in Hst.
    destruct Hbit as [-> | ->];
      destruct Hb as [Hb|[Hb|[Hb|Hb]]]; rewrite Hb in *;
      destruct Hst as [-> | [-> Hg]]; cbn in *;
      try discriminate; intuition (auto; lia). }
  destruct op as [a|a|a|a]; cbn [bp_step].
  - rewrite activate_read_state.
    destruct (Z.eqb_spec r (region_of a)) as [Hr|Hr]; [|apply Hinv].
    apply (Hcase a BP_CHECK_READ); auto.
  - rewrite deactivate_read_state.
    destruct (Z.eqb_spec r (region_of a)) as [Hr|Hr]; [|apply Hinv].
    apply (Hcase a BP_CHECK_READ); auto.
  - rewrite activate_write_state.
    destruct (Z.eqb_spec r (region_of a)) as [Hr|Hr]; [|apply Hinv].
    apply (Hcase a BP_CHECK_WRITE); auto.
  - rewrite deactivate_write_state.
    destruct (Z.eqb_spec r (region_of a)) as [Hr|Hr]; [|apply Hinv].
    apply (Hcase a BP_CHECK_WRITE); auto.
Qed.

(** X7. The overlay invariant holds after every run of debugger operations
    whose deactivations address regions with a nonzero mask: in every
    region, a zero mask goes with the real handler in the live slot, and a
    nonzero mask with the real handler in the shadow and the debug handler
    in the live slot. *)
Lemma bp_run_overlay_invariant (real : Z -> mem_handler)
    (ops : list bp_op) :
  forall mem : memory,
    (forall r, overlay_invariant real mem r) ->
    deactivations_hit_active mem ops ->
    forall r, overlay_invariant real (bp_run mem ops) r.
Proof.
  induction ops as [|op ops IH]; intros mem Hinv Hguard; cbn [bp_run fold_left].
  - assumption.
  - destruct Hguard as [Hop Hrest]. apply IH; [|assumption].
    apply bp_step_overlay_invariant; [assumption|].
    cbn [deactivations_hit_active]. auto.
Qed.

(** * Further properties of the breakpoint overlay *)

Lemma activated_state_in (mem : memory) (r bit : Z) :
  activated_state mem r bit =
  activate_in (dbg_handler mem) bit (region_state mem r).
Proof. reflexivity. Qed.

Lemma deactivated_state_in (mem : memory) (r bit : Z) :
  deactivated_state mem r bit = deactivate_in bit (region_state mem r).
Proof. reflexivity. Qed.

Lemma activate_read_dbg_handler (mem : memory) (a : Z) :
  dbg_handler (activate_memory_break_read mem a) = dbg_handler mem.
Proof. exact (bp_step_dbg_handler mem (ActivateRead a)). Qed.

Lemma activate_write_dbg_handler (mem : memory) (a : Z) :
  dbg_handler (activate_memory_break_write mem a) = dbg_handler mem.
Proof. exact (bp_step_dbg_handler mem (ActivateWrite a)). Qed.

Lemma uint8_lor_absorb (x y : Z) :
  uint8 (Z.lor (uint8 x) y) = uint8 (Z.lor x y).
Proof.
  apply Z.bits_inj'. intros n Hn.
  rewrite !uint8_testbit_full, !Z.lor_spec, uint8_testbit_full by assumption.
  destruct (n <? 8), (Z.testbit x n), (Z.testbit y n); reflexivity.
Qed.

Lemma uint8_land_absorb (x y : Z) :
  uint8 (Z.land (uint8 x) y) = uint8 (Z.land x y).
Proof.
  apply Z.bits_inj'. intros n Hn.
  rewrite !uint8_testbit_full, !Z.land_spec, uint8_testbit_full by assumption.
  destruct (n <? 8), (Z.testbit x n), (Z.testbit y n); reflexivity.
Qed.

(** A mask with one of the two bits just set is active. *)
Lemma bp_inactive_after_set (b bit : Z) :
  bit = BP_CHECK_READ \/ bit = BP_CHECK_WRITE ->
  bp_inactive (uint8 (Z.lor b bit)) = false.
Proof.
  intros Hbit. rewrite bp_inactive_bits, !mask_set_testbit by lia.
  destruct Hbit as [-> | ->]; cbn [BP_CHECK_READ BP_CHECK_WRITE];
    change (Z.testbit 1 0) with true; change (Z.testbit 1 1) with false;
    change (Z.testbit 2 0) with false; change (Z.testbit 2 1) with true;
    rewrite ?orb_true_r, ?orb_false_r; cbn [negb andb];
    now rewrite ?andb_false_r.
Qed.

(** Clearing a bit of an inactive mask leaves it inactive. *)
Lemma bp_inactive_after_clear (b bit : Z) :
  bp_inactive b = true ->
  bp_inactive (uint8 (Z.land b (Z.lnot bit))) = true.
Proof.
  rewrite !bp_inactive_bits, !mask_clear_testbit by lia. intros H.
  apply andb_prop in H. destruct H as [H0 H1].
  apply negb_true_iff in H0. apply negb_true_iff in H1.
  now rewrite H0, H1.
Qed.

(** X1. Activation is idempotent: a second Activate Breakpoint Read (or
    Write) on the same address leaves every region's live slot, shadow,
    type tag and mask as the first one left them.  In particular the
    shadow keeps the displaced handler and is not overwritten with the
    debug handler. *)
Theorem activate_idempotent (mem : memory) (a r : Z) :
  region_state
    (activate_memory_break_read (activate_memory_break_read mem a) a) r
  = region_state (activate_memory_break_read mem a) r /\
  region_state
    (activate_memory_break_write (activate_memory_break_write mem a) a) r
  = region_state (activate_memory_break_write mem a) r.
Proof.
  split.
  - rewrite activate_read_state.
    destruct (Z.eqb_spec r (region_of a)) as [->|Hne]; [|reflexivity].
    rewrite activated_state_in, activate_read_dbg_handler.
    rewrite activate_read_state, Z.eqb_refl, activated_state_in.
    destruct (region_state mem (region_of a)) as [[[l sv] ty] b].
    cbn [activate_in].
    rewrite bp_inactive_after_set by auto.
    rewrite uint8_lor_absorb, <- Z.lor_assoc, Z.lor_diag. reflexivity.
  - rewrite activate_write_state.
    destruct (Z.eqb_spec r (region_of a)) as [->|Hne]; [|reflexivity].
    rewrite activated_state_in, activate_write_dbg_handler.
    rewrite activate_write_state, Z.eqb_refl, activated_state_in.
    destruct (region_state mem (region_of a)) as [[[l sv] ty] b].
    cbn [activate_in].
    rewrite bp_inactive_after_set by auto.
    rewrite uint8_lor_absorb, <- Z.lor_assoc, Z.lor_diag. reflexivity.
Qed.

(** X2. Activations commute: Activate Breakpoint Read at [a1] followed by
    Activate Breakpoint Write at [a2] leaves every region in the state
    that the opposite order leaves it in, whether or not the two addresses
    share a region. *)
Theorem activate_read_write_commute (mem : memory) (a1 a2 r : Z) :
  region_state
    (activate_memory_break_write (activate_memory_break_read mem a1) a2) r
  = region_state
      (activate_memory_break_read (activate_memory_break_write mem a2) a1) r.
Proof.
  rewrite (activate_write_state (activate_memory_break_read mem a1) a2 r).
  rewrite (activate_read_state (activate_memory_break_write mem a2) a1 r).
  rewrite !activated_state_in, activate_read_dbg_handler,
    activate_write_dbg_handler.
  rewrite (activate_read_state mem a1 r), (activate_write_state mem a2 r).
  rewrite !activated_state_in.
  destruct (r =? region_of a1), (r =? region_of a2); try reflexivity.
  destruct (region_state mem r) as [[[l sv] ty] b]. cbn [activate_in].
  rewrite !bp_inactive_after_set by auto.
  rewrite !uint8_lor_absorb, <- !Z.lor_assoc.
  rewrite (Z.lor_comm BP_CHECK_READ BP_CHECK_WRITE).
  destruct (bp_inactive b); reflexivity.
Qed.

Lemma bp_step_state (mem : memory) (op : bp_op) (r : Z) :
  region_state (bp_step mem op) r =
  if r =? region_of (bp_address op) then
    match op with
    | ActivateRead _ =>
        activate_in (dbg_handler mem) BP_CHECK_READ (region_state mem r)
    | DeactivateRead _ => deactivate_in BP_CHECK_READ (region_state mem r)
    | ActivateWrite _ =>
        activate_in (dbg_handler mem) BP_CHECK_WRITE (region_state mem r)
    | DeactivateWrite _ => deactivate_in BP_CHECK_WRITE (region_state mem r)
    end
  else region_state mem r.
Proof.
  destruct op as [a|a|a|a]; cbn [bp_step bp_address].
  - now rewrite activate_read_state, activated_state_in.
  - now rewrite deactivate_read_state, deactivated_state_in.
  - now rewrite activate_write_state, activated_state_in.
  - now rewrite deactivate_write_state, deactivated_state_in.
Qed.

Lemma bp_step_base (mem : memory) (op : bp_op) :
  base (bp_step mem op) = base mem.
Proof.
  destruct op; cbn [bp_step];
    unfold activate_memory_break_read, activate_memory_break_write,
      deactivate_memory_break_read, deactivate_memory_break_write;
    match goal with |- context [if ?c then _ else _] => destruct c end;
    reflexivity.
Qed.

(** X3. A debugger operation touches one region only: Activate or
    Deactivate Breakpoint (Read or Write) at an address leaves the live
    slot, shadow, type tag and mask of every other region untouched, and
    never changes the shared debug handler or the base pointer. *)
Theorem bp_step_frame (mem : memory) (op : bp_op) (r : Z) :
  r <> region_of (bp_address op) ->
  region_state (bp_step mem op) r = region_state mem r /\
  dbg_handler (bp_step mem op) = dbg_handler mem /\
  base (bp_step mem op) = base mem.
Proof.
  intros Hr. rewrite bp_step_state, bp_step_dbg_handler, bp_step_base.
  apply Z.eqb_neq in Hr. now rewrite Hr.
Qed.

Lemma bp_step_frame_witness :
  0x8001 <> region_of (bp_address (ActivateRead 0x80000000)) /\
  region_state (bp_step used_memory (ActivateRead 0x80000000)) 0x8001
    = region_state used_memory 0x8001.
Proof.
  split; [discriminate|].
  apply (bp_step_frame used_memory (ActivateRead 0x80000000) 0x8001).
  discriminate.
Defined.

Lemma bp_step_memtype (mem : memory) (op : bp_op) (r : Z) :
  memtype (bp_step mem op) r = memtype mem r.
Proof.
  pose proof (bp_step_state mem op r) as H.
  destruct (r =? region_of (bp_address op)).
  - destruct (region_state mem r) as [[[l sv] ty] b] eqn:Hs.
    unfold region_state in Hs. inversion Hs; subst.
    destruct op; cbn [activate_in deactivate_in] in H;
      apply region_state_parts in H; tauto.
  - apply region_state_eq in H. tauto.
Qed.

Lemma bp_run_memtype (ops : list bp_op) :
  forall (mem : memory) (r : Z), memtype (bp_run mem ops) r = memtype mem r.
Proof.
  induction ops as [|op ops IH]; intros mem r; cbn [bp_run fold_left].
  - reflexivity.
  - fold (bp_run (bp_step mem op) ops). now rewrite IH, bp_step_memtype.
Qed.

(** X4. Query Region Type answers with the tag of the installed mapping
    whatever the debugger does afterwards: in a DBG build, for a 32-bit
    address of a region covered by [m], [get_memory_type] after
    [apply_mem_mapping] and any run of activations and deactivations is
    [m]'s type. *)
Theorem get_memory_type_after_install (E : env) (mem : memory)
    (m : mem_mapping) (ops : list bp_op) (a : Z) :
  DBG E = true ->
  0 <= a < 2 ^ 32 ->
  covers m (region_of a) = true ->
  get_memory_type (bp_run (apply_mem_mapping E mem m) ops) a = type m.
Proof.
  intros HD Ha Hc. unfold get_memory_type.
  rewrite shiftr_region_of by assumption. rewrite bp_run_memtype.
  destruct (apply_mem_mapping_state E mem m (region_of a)) as (H & _).
  rewrite Hc in H. unfold mapped_state in H. rewrite HD in H.
  apply region_state_parts in H. tauto.
Qed.

Lemma get_memory_type_after_install_witness :
  DBG (no_breakpoints true) = true /\
  0 <= 0x80012345 < 2 ^ 32 /\
  covers ram_mapping (region_of 0x80012345) = true /\
  get_memory_type
    (bp_run (apply_mem_mapping (no_breakpoints true) zero_memory ram_mapping)
            [ActivateRead 0x80010000; DeactivateWrite 0x80010000])
    0x80012345 = type ram_mapping.
Proof.
  split; [reflexivity|]. split; [lia|]. split; [reflexivity|].
  apply (get_memory_type_after_install (no_breakpoints true) zero_memory
           ram_mapping [ActivateRead 0x80010000; DeactivateWrite 0x80010000]
           0x80012345); [reflexivity | lia | reflexivity].
Defined.

Lemma bp_inactive_bit0 (b : Z) : bp_inactive b = true -> Z.testbit b 0 = false.
Proof.
  rewrite bp_inactive_bits. intros H. apply andb_prop in H.
  destruct H as [H _]. now apply negb_true_iff in H.
Qed.

Lemma bp_inactive_bit1 (b : Z) : bp_inactive b = true -> Z.testbit b 1 = false.
Proof.
  rewrite bp_inactive_bits. intros H. apply andb_prop in H.
  destruct H as [_ H]. now apply negb_true_iff in H.
Qed.

(** With the read bit clear before, setting both bits and clearing the
    read bit leaves the write bit set alone. *)
Lemma mask_set_both_clear_read (b : Z) :
  Z.testbit b 0 = false ->
  uint8 (Z.land (uint8 (Z.lor (uint8 (Z.lor b BP_CHECK_READ)) BP_CHECK_WRITE))
                (Z.lnot BP_CHECK_READ))
  = uint8 (Z.lor b BP_CHECK_WRITE).
Proof.
  intros H0. apply Z.bits_inj'. intros n Hn.
  change BP_CHECK_READ with (2 ^ 0). change BP_CHECK_WRITE with (2 ^ 1).
  rewrite !uint8_testbit_full, Z.land_spec, Z.lnot_spec by assumption.
  rewrite !uint8_testbit_full, !Z.lor_spec by assumption.
  rewrite !uint8_testbit_full, !Z.lor_spec by assumption.
  rewrite !Z.pow2_bits_eqb by lia.
  destruct (Z.eqb_spec 0 n) as [<-|Hn0].
  - rewrite H0. reflexivity.
  - destruct (n <? 8), (Z.testbit b n), (1 =? n); reflexivity.
Qed.

(** X5. Interception lasts until the last kind is deactivated.  On a
    region with neither kind active, after Activate Read and Activate
    Write, Deactivate Read leaves the debug handler live and the displaced
    handler in the shadow; the following Deactivate Write puts the
    displaced handler back into the live slot and the mask back to its
    value. *)
Theorem interception_ends_with_last_kind (mem : memory) (a : Z) :
  0 <= bp_checks mem (region_of a) < 256 ->
  bp_inactive (bp_checks mem (region_of a)) = true ->
  region_state
    (bp_run mem [ActivateRead a; ActivateWrite a; DeactivateRead a])
    (region_of a)
  = (dbg_handler mem, handlers mem (region_of a), memtype mem (region_of a),
     uint8 (Z.lor (bp_checks mem (region_of a)) BP_CHECK_WRITE)) /\
  region_state
    (bp_run mem [ActivateRead a; ActivateWrite a; DeactivateRead a;
                 DeactivateWrite a])
    (region_of a)
  = (handlers mem (region_of a), handlers mem (region_of a),
     memtype mem (region_of a), bp_checks mem (region_of a)).
Proof.
  intros Hb Hi. cbn [bp_run fold_left].
  rewrite !bp_step_state. cbn [bp_address]. rewrite !Z.eqb_refl.
  rewrite !bp_step_dbg_handler.
  unfold region_state. cbn [activate_in deactivate_in].
  rewrite Hi, !bp_inactive_after_set by auto.
  rewrite mask_set_both_clear_read by auto using bp_inactive_bit0.
  rewrite !bp_inactive_after_set by auto.
  split; [reflexivity|].
  change BP_CHECK_WRITE with (2 ^ 1).
  rewrite mask_set_then_clear by (auto using bp_inactive_bit1; lia).
  now rewrite Hi.
Qed.

Lemma interception_ends_with_last_kind_witness :
  0 <= bp_checks used_memory (region_of 0x80000000) < 256 /\
  bp_inactive (bp_checks used_memory (region_of 0x80000000)) = true /\
  region_state
    (bp_run used_memory
       [ActivateRead 0x80000000; ActivateWrite 0x80000000;
        DeactivateRead 0x80000000; DeactivateWrite 0x80000000])
    (region_of 0x80000000)
  = (handlers used_memory (region_of 0x80000000),
     handlers used_memory (region_of 0x80000000),
     memtype used_memory (region_of 0x80000000),
     bp_checks used_memory (region_of 0x80000000)).
Proof.
  assert (Hm : bp_checks used_memory (region_of 0x80000000) = 0)
    by reflexivity.
  split; [rewrite Hm; lia|]. split; [reflexivity|].
  apply (interception_ends_with_last_kind used_memory 0x80000000).
  - rewrite Hm. lia.
  - reflexivity.
Defined.

Lemma install_round_trip_restores_witness :
  covers ram_mapping (region_of 0x80010040) = true /\
  breakpoint_enabled (no_breakpoints true) (region_of 0x80010040) = false /\
  0 <= bp_checks zero_memory (region_of 0x80010040) < 256 /\
  bp_inactive (bp_checks zero_memory (region_of 0x80010040)) = true /\
  handlers
    (deactivate_memory_break_read
       (activate_memory_break_read
          (apply_mem_mapping (no_breakpoints true) zero_memory ram_mapping)
          0x80010040) 0x80010040)
    (region_of 0x80010040) = handler ram_mapping.
Proof.
  assert (Hm : bp_checks zero_memory (region_of 0x80010040) = 0)
    by reflexivity.
  split; [reflexivity|]. split; [reflexivity|]. split; [rewrite Hm; lia|].
  split; [reflexivity|].
  apply (install_round_trip_restores (no_breakpoints true) zero_memory
           ram_mapping 0x80010040);
    [reflexivity | reflexivity | rewrite Hm; lia | reflexivity].
Defined.

Lemma used_memory_mask (r : Z) : bp_checks used_memory r = 0.
Proof.
  unfold used_memory, init_memory. rewrite fold_apply_mem_mapping_mask.
  cbn. now destruct ((0 <=? r) && (r <? 65536)).
Qed.

Lemma bp_run_overlay_invariant_witness :
  (forall r, overlay_invariant (handlers used_memory) used_memory r) /\
  deactivations_hit_active used_memory
    [ActivateRead 0x80000000; ActivateWrite 0x80010000;
     DeactivateRead 0x80000000] /\
  overlay_invariant (handlers used_memory)
    (bp_run used_memory
       [ActivateRead 0x80000000; ActivateWrite 0x80010000;
        DeactivateRead 0x80000000])
    0x8000.
Proof.
  assert (Hinv : forall r,
             overlay_invariant (handlers used_memory) used_memory r).
  { intros r. unfold overlay_invariant, overlay_holds, region_state.
    rewrite used_memory_mask. cbn. split; [lia | reflexivity]. }
  assert (Hg : deactivations_hit_active used_memory
                 [ActivateRead 0x80000000; ActivateWrite 0x80010000;
                  DeactivateRead 0x80000000]).
  { cbn [deactivations_hit_active]. repeat split. }
  split; [exact Hinv|]. split; [exact Hg|].
  exact (bp_run_overlay_invariant (handlers used_memory) _ used_memory
           Hinv Hg 0x8000).
Defined.

(** X8. Interception is transparent.  In a DBG build, after Activate
    Breakpoint Read on a region with neither kind active, the live slot
    holds the debug handler; the read trampoline reports the access to the
    debugger and then calls the displaced handler's read entry point with
    its context, and the write trampoline calls its write entry point
    without any report. *)
Theorem activate_read_is_transparent (E : env) (mem : memory)
    (pc a value mask : Z) :
  DBG E = true ->
  bp_inactive (bp_checks mem (region_of a)) = true ->
  read32 (handlers mem (region_of a)) <> 0 ->
  write32 (handlers mem (region_of a)) <> 0 ->
  handlers (activate_memory_break_read mem a) (region_of a)
    = dbg_handler mem /\
  read_with_bp_checks E (activate_memory_break_read mem a) pc a
    = Some [read_report E pc a;
            ev_read32 (read32 (handlers mem (region_of a)))
                      (opaque (handlers mem (region_of a))) a] /\
  write_with_bp_checks E (activate_memory_break_read mem a) pc a value mask
    = Some [ev_write32 (write32 (handlers mem (region_of a)))
                       (opaque (handlers mem (region_of a))) a value mask].
Proof.
  intros HD Hi Hr Hw.
  pose proof (activate_read_state mem a (region_of a)) as H.
  rewrite Z.eqb_refl in H. unfold activated_state in H. rewrite Hi in H.
  apply region_state_parts in H. destruct H as (Hh & Hs & _ & Hm).
  split; [assumption|]. split.
  - rewrite read_with_bp_checks_forwards by (rewrite ?Hs; assumption).
    rewrite Hs, Hm, mask_set_testbit by lia.
    change (Z.testbit BP_CHECK_READ 0) with true.
    now rewrite orb_true_r.
  - rewrite write_with_bp_checks_forwards by (rewrite ?Hs; assumption).
    rewrite Hs, Hm, mask_set_testbit by lia.
    rewrite (bp_inactive_bit1 _ Hi). reflexivity.
Qed.

Lemma activate_read_is_transparent_witness :
  DBG (no_breakpoints true) = true /\
  bp_inactive (bp_checks used_memory (region_of 0x80000010)) = true /\
  read32 (handlers used_memory (region_of 0x80000010)) <> 0 /\
  write32 (handlers used_memory (region_of 0x80000010)) <> 0 /\
  write_with_bp_checks (no_breakpoints true)
    (activate_memory_break_read used_memory 0x80000010)
    0x80000400 0x80000010 0xcafe 0xffffffff
  = Some [ev_write32 0x401100 0x7000 0x80000010 0xcafe 0xffffffff].
Proof.
  split; [reflexivity|]. split; [reflexivity|].
  split; [discriminate|]. split; [discriminate|].
  apply (activate_read_is_transparent (no_breakpoints true) used_memory
           0x80000400 0x80000010 0xcafe 0xffffffff);
    [reflexivity | reflexivity | discriminate | discriminate].
Defined.

(** X9. A breakpoint that the registry already held when the mapping was
    installed can be removed: on a region with neither mask bit set,
    covered by [m] and reported enabled by the registry, Deactivate
    Breakpoint Read (or Write) after [apply_mem_mapping] puts [m]'s handler
    into the live slot. *)
Theorem deactivate_after_intercepted_install (E : env) (mem : memory)
    (m : mem_mapping) (a : Z) :
  covers m (region_of a) = true ->
  breakpoint_enabled E (region_of a) = true ->
  bp_inactive (bp_checks mem (region_of a)) = true ->
  handlers (deactivate_memory_break_read (apply_mem_mapping E mem m) a)
           (region_of a) = handler m /\
  handlers (deactivate_memory_break_write (apply_mem_mapping E mem m) a)
           (region_of a) = handler m.
Proof.
  intros Hc Hb Hi.
  destruct (apply_mem_mapping_intercepted E mem m (region_of a) Hc Hb)
    as (_ & Hs & Hm & _).
  split.
  - pose proof (deactivate_read_state (apply_mem_mapping E mem m) a
                  (region_of a)) as H.
    rewrite Z.eqb_refl in H. unfold deactivated_state in H.
    rewrite Hm, bp_inactive_after_clear, Hs in H by assumption.
    apply region_state_parts in H. tauto.
  - pose proof (deactivate_write_state (apply_mem_mapping E mem m) a
                  (region_of a)) as H.
    rewrite Z.eqb_refl in H. unfold deactivated_state in H.
    rewrite Hm, bp_inactive_after_clear, Hs in H by assumption.
    apply region_state_parts in H. tauto.
Qed.

Lemma deactivate_after_intercepted_install_witness :
  covers ram_mapping (region_of 0x80010040) = true /\
  breakpoint_enabled (one_breakpoint 0x80010040) (region_of 0x80010040)
    = true /\
  bp_inactive (bp_checks zero_memory (region_of 0x80010040)) = true /\
  handlers
    (deactivate_memory_break_read
       (apply_mem_mapping (one_breakpoint 0x80010040) zero_memory ram_mapping)
       0x80010040)
    (region_of 0x80010040) = handler ram_mapping.
Proof.
  split; [reflexivity|]. split; [reflexivity|]. split; [reflexivity|].
  apply (deactivate_after_intercepted_install (one_breakpoint 0x80010040)
           zero_memory ram_mapping 0x80010040); reflexivity.
Defined.

Lemma mask_update_range (b bit : Z) :
  0 <= b < 4 -> bit = BP_CHECK_READ \/ bit = BP_CHECK_WRITE ->
  0 <= uint8 (Z.lor b bit) < 4 /\ 0 <= uint8 (Z.land b (Z.lnot bit)) < 4.
Proof.
  intros Hb Hbit.
  assert (H : b = 0 \/ b = 1 \/ b = 2 \/ b = 3) by lia.
  destruct Hbit as [-> | ->]; destruct H as [->|[->|[->| ->]]];
    cbv; intuition discriminate.
Qed.

Lemma table_step_mask_range (E : env) (mem : memory) (op : table_op)
    (r : Z) :
  0 <= bp_checks mem r < 4 -> 0 <= bp_checks (table_step E mem op) r < 4.
Proof.
  intros Hb. destruct op as [m|op]; cbn [table_step].
  - now rewrite apply_mem_mapping_mask.
  - pose proof (bp_step_state mem op r) as H.
    destruct (r =? region_of (bp_address op)).
    + destruct op; unfold region_state at 2 in H;
        cbn [activate_in deactivate_in] in H;
        apply region_state_parts in H; destruct H as (_ & _ & _ & ->);
        apply mask_update_range; auto.
    + apply region_state_eq in H. destruct H as (_ & _ & _ & ->).
      assumption.
Qed.

Lemma table_run_mask_range (E : env) (ops : list table_op) :
  forall (mem : memory) (r : Z),
    0 <= bp_checks mem r < 4 -> 0 <= bp_checks (table_run E mem ops) r < 4.
Proof.
  induction ops as [|op ops IH]; intros mem r Hb; cbn [table_run fold_left].
  - assumption.
  - apply IH. now apply table_step_mask_range.
Qed.

(** X10. Only the two defined bits are ever set.  In a DBG build, in
    every state reached from [init_memory] by installing mappings and by
    activations and deactivations, the mask of every region is 0,
    [BP_CHECK_READ], [BP_CHECK_WRITE] or both. *)
Theorem mask_stays_two_bits (E : env) (mem0 : memory)
    (mappings : list mem_mapping) (base_ptr : Z) (dbg : mem_handler)
    (ops : list table_op) (r : Z) :
  DBG E = true ->
  0 <= r < 0x10000 ->
  0 <= bp_checks
         (table_run E (init_memory E mem0 mappings base_ptr dbg) ops) r < 4.
Proof.
  intros HD Hr. apply table_run_mask_range.
  rewrite init_memory_mask by assumption. lia.
Qed.

Lemma mask_stays_two_bits_witness :
  DBG (no_breakpoints true) = true /\
  0 <= 0x8000 < 0x10000 /\
  0 <= bp_checks
         (table_run (no_breakpoints true)
            (init_memory (no_breakpoints true) zero_memory [ram_mapping] 0
               debug_handler)
            [Debugger (ActivateRead 0x80000000);
             Debugger (ActivateWrite 0x80000000);
             Install ram_mapping])
         0x8000 < 4.
Proof.
  split; [reflexivity|]. split; [lia|].
  apply (mask_stays_two_bits (no_breakpoints true) zero_memory [ram_mapping]
           0 debug_handler); [reflexivity | lia].
Defined.

(** * Further properties of Initialize *)

Lemma fold_apply_mem_mapping_state (E : env) (mappings : list mem_mapping) :
  forall (mem : memory) (r : Z),
    region_state (fold_left (apply_mem_mapping E) mappings mem) r =
    match last_covering mappings r with
    | Some m => mapped_state E mem r (type m) (handler m)
    | None => region_state mem r
    end /\
    dbg_handler (fold_left (apply_mem_mapping E) mappings mem)
      = dbg_handler mem /\
    base (fold_left (apply_mem_mapping E) mappings mem) = base mem.
Proof.
  induction mappings as [|m ms IH] using rev_ind; intros mem r.
  - cbn. auto.
  - rewrite fold_left_app. cbn [fold_left].
    unfold last_covering. rewrite rev_app_distr. cbn [rev app find].
    fold (last_covering ms r).
    destruct (IH mem r) as (Hs & Hd & Hb).
    destruct (apply_mem_mapping_state E
                (fold_left (apply_mem_mapping E) ms mem) m r)
      as (Hs' & Hd' & Hb').
    rewrite Hs', Hd', Hb', Hd, Hb. split; [|auto].
    destruct (covers m r); [|exact Hs].
    unfold mapped_state. rewrite Hd.
    destruct (last_covering ms r) as [m'|].
    + unfold mapped_state in Hs. apply region_state_parts in Hs.
      destruct Hs as (_ & Hsv & Hty & Hmk). rewrite Hsv, Hty, Hmk.
      destruct (breakpoint_enabled E r); destruct (DBG E); reflexivity.
    + apply region_state_eq in Hs.
      destruct Hs as (_ & Hsv & Hty & Hmk). now rewrite Hsv, Hty, Hmk.
Qed.

(** X11. Overlapping mappings follow last-write-wins per region.  After
    [init_memory], each region holds what the last mapping of the list
    that covers it installs (its handler in the live slot, or in the
    shadow with the debug handler live when the registry reports an
    enabled breakpoint; its type tag in a DBG build), and a region that no
    mapping covers keeps the handler, shadow and tag it had before the
    call. *)
Theorem init_memory_last_mapping_wins (E : env) (mem : memory)
    (mappings : list mem_mapping) (base_ptr : Z) (dbg : mem_handler)
    (r : Z) :
  handlers (init_memory E mem mappings base_ptr dbg) r =
    match last_covering mappings r with
    | Some m => if breakpoint_enabled E r then dbg else handler m
    | None => handlers mem r
    end /\
  saved_handlers (init_memory E mem mappings base_ptr dbg) r =
    match last_covering mappings r with
    | Some m => if breakpoint_enabled E r then handler m
                else saved_handlers mem r
    | None => saved_handlers mem r
    end /\
  memtype (init_memory E mem mappings base_ptr dbg) r =
    match last_covering mappings r with
    | Some m => if DBG E then type m else memtype mem r
    | None => memtype mem r
    end.
Proof.
  unfold init_memory.
  match goal with
  | |- context [fold_left _ _ ?M] =>
      destruct (fold_apply_mem_mapping_state E mappings M r) as (H & _)
  end.
  destruct (last_covering mappings r) as [m|].
  - unfold mapped_state in H. apply region_state_parts in H.
    destruct H as (Hh & Hs & Ht & _). rewrite Hh, Hs, Ht.
    unfold breakpoint_enabled. destruct (DBG E); cbn; auto.
  - apply region_state_eq in H. destruct H as (Hh & Hs & Ht & _).
    rewrite Hh, Hs, Ht. destruct (DBG E); cbn; auto.
Qed.

(** Two overlapping mappings: the catch-all ROM mapping first, RAM over
    two regions after it. *)
Example init_memory_overlap :
  map (fun r =>
         handlers
           (init_memory (no_breakpoints true) zero_memory
              [mk_mapping 0x80000000 0x8003ffff 1 rom_handler; ram_mapping]
              0 debug_handler) r)
      [0x7fff; 0x8000; 0x8001; 0x8002; 0x8003; 0x8004]
  = [null_handler; ram_handler; ram_handler; rom_handler; rom_handler;
     null_handler].
Proof. vm_compute. reflexivity. Qed.

(** * Further properties of Allocate and Release *)

(** X12. [init_mem_base] returns 0 or 1, and 0 exactly when the host
    grants the first five requests; a host that refuses one of them, or
    has no answer left, gets 1. *)
Theorem init_mem_base_result (P : platform) (mb : MemoryBase) (h : host) :
  (fst (fst (init_mem_base P mb h)) = 0 \/
   fst (fst (init_mem_base P mb h)) = 1) /\
  (fst (fst (init_mem_base P mb h)) = 0 <->
   exists p1 p2 p3 p4 p5 rest,
     answers h = Some p1 :: Some p2 :: Some p3 :: Some p4 :: Some p5 :: rest).
Proof.
  destruct h as [ans lv rel msgs]. cbn [answers].
  destruct ans as [|[p1|] ans];
    [ | destruct ans as [|[p2|] ans];
        [ | destruct ans as [|[p3|] ans];
            [ | destruct ans as [|[p4|] ans];
                [ | destruct ans as [|[p5|] ans] | ] | ] | ] | ];
    cbn;
    try (split; [right; reflexivity|];
         split; [discriminate|];
         intros (q1 & q2 & q3 & q4 & q5 & rest & H); discriminate H).
  split; [left; reflexivity|]. split; [|reflexivity].
  intros _. exists p1, p2, p3, p4, p5, ans. reflexivity.
Qed.

Lemma release_mem_base_fold (mb : MemoryBase) (h : host) :
  release_mem_base mb h = fold_left free (buffer_ptrs mb) h.
Proof. reflexivity. Qed.

Lemma filter_filter {A : Type} (f g : A -> bool) (l : list A) :
  filter f (filter g l) = filter (fun x => g x && f x) l.
Proof.
  induction l as [|x l IH]; cbn; [reflexivity|].
  destruct (g x); cbn; [destruct (f x)|]; now rewrite IH.
Qed.

(** The blocks left after a sequence of [free] calls are those whose
    pointer was not passed as a non-null argument. *)
Lemma live_fold_free (ps : list Z) :
  forall h : host,
    live (fold_left free ps h) =
    filter (fun b => negb (freed_by ps (block_ptr b))) (live h).
Proof.
  induction ps as [|p ps IH]; intros h; cbn [fold_left].
  - cbn. induction (live h) as [|x l IHl]; cbn; [reflexivity|].
    now rewrite <- IHl.
  - rewrite IH. unfold free. destruct (Z.eqb_spec p 0) as [->|Hp].
    + apply filter_ext. intros b. unfold freed_by. cbn [existsb].
      now rewrite Z.eqb_refl.
    + cbn [live]. rewrite filter_filter. apply filter_ext. intros b.
      unfold freed_by. cbn [existsb]. apply Z.eqb_neq in Hp. rewrite Hp.
      cbn [negb andb]. now rewrite negb_orb.
Qed.

Lemma filter_freed (ps : list Z) (bs old : list block) :
  (forall b, In b bs -> freed_by ps (block_ptr b) = true) ->
  (forall b, In b old -> freed_by ps (block_ptr b) = false) ->
  filter (fun b => negb (freed_by ps (block_ptr b))) (bs ++ old) = old.
Proof.
  intros Hbs Hold. rewrite filter_app.
  replace (filter _ bs) with (@nil block).
  - cbn. induction old as [|x l IH]; cbn; [reflexivity|].
    rewrite (Hold x) by (left; reflexivity). cbn. f_equal.
    apply IH. intros b Hb. apply Hold. now right.
  - symmetry. induction bs as [|x l IH]; cbn; [reflexivity|].
    rewrite (Hbs x) by (left; reflexivity). cbn.
    apply IH. intros b Hb. apply Hbs. now right.
Qed.

Lemma freed_by_in (ps : list Z) (p : Z) :
  p <> 0 -> In p ps -> freed_by ps p = true.
Proof.
  intros Hp Hin. unfold freed_by. apply existsb_exists. exists p.
  split; [assumption|]. apply Z.eqb_neq in Hp. now rewrite Hp, Z.eqb_refl.
Qed.

Lemma freed_by_out (ps : list Z) (p : Z) :
  (forall q, In q ps -> q <> 0 -> p <> q) -> freed_by ps p = false.
Proof.
  intros H. unfold freed_by.
  destruct (existsb _ ps) eqn:He; [|reflexivity].
  apply existsb_exists in He. destruct He as (q & Hin & Hq).
  apply andb_prop in Hq. destruct Hq as [Hq0 Hpq].
  apply negb_true_iff, Z.eqb_neq in Hq0. apply Z.eqb_eq in Hpq.
  exfalso. now apply (H q Hin Hq0).
Qed.

(** X13. Allocate followed by Release leaks nothing, whatever the outcome of
    Allocate.  Starting from a [MemoryBase] in zeroed storage, with a host
    whose granted pointers are non-null and not already allocated,
    [release_mem_base] after [init_mem_base] leaves allocated exactly the
    blocks that were allocated before the two calls: after a success, and
    after a failure at any of the five requests. *)
Theorem release_after_init_leaks_nothing (P : platform) (h : host) :
  (forall p, In (Some p) (answers h) ->
             p <> 0 /\ forall blk, In blk (live h) -> block_ptr blk <> p) ->
  live (release_mem_base (snd (fst (init_mem_base P null_base h)))
                         (snd (init_mem_base P null_base h)))
  = live h.
Proof.
  intros H. rewrite release_mem_base_fold, live_fold_free.
  destruct h as [ans lv rel msgs]. cbn [answers live] in *.
  assert (Hfresh : forall p blk, In (Some p) ans -> In blk lv ->
                                 block_ptr blk <> p)
    by (intros p blk Hp; now apply H).
  assert (Hnz : forall p, In (Some p) ans -> p <> 0)
    by (intros p Hp; now apply H).
  destruct ans as [|[p1|] ans];
    [ | destruct ans as [|[p2|] ans];
        [ | destruct ans as [|[p3|] ans];
            [ | destruct ans as [|[p4|] ans];
                [ | destruct ans as [|[p5|] ans] | ] | ] | ] | ];
    cbn [init_mem_base alloc_buffer aligned_alloc answers live fst snd
         set_buffer_ptr DebugMessage null_base rdram cartrom rspmem ddrom
         pifmem buffer_ptrs];
    match goal with
    | |- filter ?f ?l = lv =>
        let bs := match l with
                  | ?b1 :: ?b2 :: ?b3 :: ?b4 :: ?b5 :: lv =>
                      constr:([b1; b2; b3; b4; b5])
                  | ?b1 :: ?b2 :: ?b3 :: ?b4 :: lv => constr:([b1; b2; b3; b4])
                  | ?b1 :: ?b2 :: ?b3 :: lv => constr:([b1; b2; b3])
                  | ?b1 :: ?b2 :: lv => constr:([b1; b2])
                  | ?b1 :: lv => constr:([b1])
                  | lv => constr:(@nil block)
                  end in
        change l with (bs ++ lv)
    end;
    unfold buffer_ptrs; cbn [rdram cartrom rspmem ddrom pifmem];
    (apply filter_freed;
     [ intros b Hb; cbn [In] in Hb;
       repeat (destruct Hb as [<-|Hb]);
       solve [ contradiction
             | cbn [block_ptr]; apply freed_by_in;
               [apply Hnz; cbn; tauto | cbn; tauto] ]
     | intros b Hb; apply freed_by_out; intros q Hq Hq0; cbn [In] in Hq;
       repeat (destruct Hq as [<-|Hq]);
       solve [ contradiction
             | exfalso; apply Hq0; reflexivity
             | apply Hfresh; [cbn; tauto | assumption] ] ]).
Qed.

Lemma release_after_init_leaks_nothing_witness :
  (forall p, In (Some p) (answers fourth_fails) ->
             p <> 0 /\
             forall blk, In blk (live fourth_fails) -> block_ptr blk <> p) /\
  live (release_mem_base
          (snd (fst (init_mem_base example_platform null_base fourth_fails)))
          (snd (init_mem_base example_platform null_base fourth_fails)))
  = live fourth_fails.
Proof.
  assert (H : forall p, In (Some p) (answers fourth_fails) ->
                p <> 0 /\
                forall blk, In blk (live fourth_fails) -> block_ptr blk <> p).
  { intros p Hp. cbn in Hp. split.
    - destruct Hp as [Hp|[Hp|[Hp|[Hp|[]]]]]; inversion Hp; discriminate.
    - intros blk []. }
  split; [exact H|].
  exact (release_after_init_leaks_nothing example_platform fourth_fails H).
Defined.

(** * Further properties of Resolve *)

(** Masking off the low [k] bits of a 32-bit value leaves the value minus
    its remainder modulo 2^k. *)
Lemma sub_land_high_bits (a k hi : Z) :
  0 <= a < 2 ^ 32 -> 0 <= k ->
  hi = Z.land (Z.ones 32) (Z.lnot (Z.ones k)) ->
  a - Z.land a hi = a mod 2 ^ k.
Proof.
  intros Ha Hk ->.
  rewrite Z.land_assoc, Z.land_ones, Z.mod_small by lia.
  rewrite <- Z.ldiff_land, Z.ldiff_ones_r by assumption.
  rewrite Z.shiftl_mul_pow2, Z.shiftr_div_pow2 by assumption.
  rewrite Z.mod_eq by (apply Z.pow_nonzero; lia). lia.
Qed.

(** X14. The coprocessor-scratch window never leaves its buffer.  A 32-bit
    address that reaches the RSP memory test and passes it resolves to the
    scratch buffer plus the low 13 bits of the address, which lies within
    the buffer as soon as the buffer has the window's 0x2000 bytes. *)
Theorem rsp_window_in_bounds (P : platform) (mb : MemoryBase) (a : Z) :
  0 <= a < 2 ^ 32 ->
  MM_RDRAM_REGS P <= a ->
  a < MM_CART_ROM P ->
  Z.land a 0xfe000000 <> MM_DD_ROM P ->
  Z.land a 0xffffe000 = MM_RSP_MEM P ->
  0x2000 <= SP_MEM_SIZE P ->
  mem_base_u32 P mb a = rspmem mb + a mod 0x2000 /\
  within P mb Rspmem (mem_base_u32 P mb a).
Proof.
  intros Ha Hr Hc Hd Hs Hsize.
  assert (Hofs : a - MM_RSP_MEM P = a mod 2 ^ 13).
  { rewrite <- Hs. now apply sub_land_high_bits. }
  assert (Hm : 0 <= a mod 2 ^ 13 < 2 ^ 13) by (apply Z.mod_pos_bound; lia).
  assert (Hp : mem_base_u32 P mb a = rspmem mb + a mod 0x2000).
  { unfold mem_base_u32.
    destruct (Z.ltb_spec a (MM_RDRAM_REGS P)); [lia|].
    destruct (Z.geb_spec a (MM_CART_ROM P)); [lia|].
    destruct (Z.eqb_spec (Z.land a 0xfe000000) (MM_DD_ROM P)); [contradiction|].
    destruct (Z.eqb_spec (Z.land a 0xffffe000) (MM_RSP_MEM P));
      [|contradiction].
    unfold uint32. rewrite Hofs, Z.mod_small by lia. reflexivity. }
  split; [assumption|]. rewrite Hp. unfold within.
  cbn [buffer_ptr buffer_size]. change 0x2000 with (2 ^ 13) in *. lia.
Qed.

Lemma rsp_window_in_bounds_witness :
  0 <= 0x04001ffc < 2 ^ 32 /\
  MM_RDRAM_REGS example_platform <= 0x04001ffc /\
  0x04001ffc < MM_CART_ROM example_platform /\
  Z.land 0x04001ffc 0xfe000000 <> MM_DD_ROM example_platform /\
  Z.land 0x04001ffc 0xffffe000 = MM_RSP_MEM example_platform /\
  0x2000 <= SP_MEM_SIZE example_platform /\
  within example_platform example_base Rspmem
    (mem_base_u32 example_platform example_base 0x04001ffc).
Proof.
  split; [lia|]. split; [cbn; lia|]. split; [cbn; lia|].
  split; [discriminate|]. split; [reflexivity|]. split; [cbn; lia|].
  apply (rsp_window_in_bounds example_platform example_base 0x04001ffc);
    [lia | cbn; lia | cbn; lia | discriminate | reflexivity | cbn; lia].
Defined.

(** X15. The boot window is 1 MiB wide whatever the boot buffer holds.  A
    32-bit address at or above the cartridge ROM base whose high 12 bits
    are the boot window's resolves to the boot buffer plus the low 20 bits
    of the address; the pointer is within the boot buffer exactly when
    those 20 bits are below [PIF_ROM_SIZE + PIF_RAM_SIZE]. *)
Theorem pif_window_offset (P : platform) (mb : MemoryBase) (a : Z) :
  0 <= a < 2 ^ 32 ->
  MM_RDRAM_REGS P <= a ->
  MM_CART_ROM P <= a ->
  Z.land a 0xfff00000 = MM_PIF_MEM P ->
  mem_base_u32 P mb a = pifmem mb + a mod 0x100000 /\
  (within P mb Pifmem (mem_base_u32 P mb a) <->
   a mod 0x100000 < PIF_ROM_SIZE P + PIF_RAM_SIZE P).
Proof.
  intros Ha Hr Hc Hs.
  assert (Hofs : a - MM_PIF_MEM P = a mod 2 ^ 20).
  { rewrite <- Hs. now apply sub_land_high_bits. }
  assert (Hm : 0 <= a mod 2 ^ 20 < 2 ^ 20) by (apply Z.mod_pos_bound; lia).
  assert (Hp : mem_base_u32 P mb a = pifmem mb + a mod 0x100000).
  { unfold mem_base_u32.
    destruct (Z.ltb_spec a (MM_RDRAM_REGS P)); [lia|].
    destruct (Z.geb_spec a (MM_CART_ROM P)); [|lia].
    destruct (Z.eqb_spec (Z.land a 0xfff00000) (MM_PIF_MEM P));
      [|contradiction].
    unfold uint32. rewrite Hofs, Z.mod_small by lia. reflexivity. }
  split; [assumption|]. rewrite Hp. unfold within.
  cbn [buffer_ptr buffer_size]. change 0x100000 with (2 ^ 20) in *. lia.
Qed.

Lemma pif_window_offset_witness :
  0 <= 0x1fc007fc < 2 ^ 32 /\
  MM_RDRAM_REGS example_platform <= 0x1fc007fc /\
  MM_CART_ROM example_platform <= 0x1fc007fc /\
  Z.land 0x1fc007fc 0xfff00000 = MM_PIF_MEM example_platform /\
  mem_base_u32 example_platform example_base 0x1fc007fc
    = pifmem example_base + 0x1fc007fc mod 0x100000.
Proof.
  split; [lia|]. split; [cbn; lia|]. split; [cbn; lia|].
  split; [reflexivity|].
  apply (pif_window_offset example_platform example_base 0x1fc007fc);
    [lia | cbn; lia | cbn; lia | reflexivity].
Defined.

(** X16. The auxiliary-ROM window is 32 MiB wide.  A 32-bit address between
    the RDRAM register boundary and the cartridge ROM base whose high 7
    bits are the window's resolves to the auxiliary buffer plus the low 25
    bits of the address; the pointer is within the auxiliary buffer exactly
    when those 25 bits are below [DD_ROM_MAX_SIZE]. *)
Theorem dd_window_offset (P : platform) (mb : MemoryBase) (a : Z) :
  0 <= a < 2 ^ 32 ->
  MM_RDRAM_REGS P <= a ->
  a < MM_CART_ROM P ->
  Z.land a 0xfe000000 = MM_DD_ROM P ->
  mem_base_u32 P mb a = ddrom mb + a mod 0x2000000 /\
  (within P mb Ddrom (mem_base_u32 P mb a) <->
   a mod 0x2000000 < DD_ROM_MAX_SIZE P).
Proof.
  intros Ha Hr Hc Hs.
  assert (Hofs : a - MM_DD_ROM P = a mod 2 ^ 25).
  { rewrite <- Hs. now apply sub_land_high_bits. }
  assert (Hm : 0 <= a mod 2 ^ 25 < 2 ^ 25) by (apply Z.mod_pos_bound; lia).
  assert (Hp : mem_base_u32 P mb a = ddrom mb + a mod 0x2000000).
  { unfold mem_base_u32.
    destruct (Z.ltb_spec a (MM_RDRAM_REGS P)); [lia|].
    destruct (Z.geb_spec a (MM_CART_ROM P)); [lia|].
    destruct (Z.eqb_spec (Z.land a 0xfe000000) (MM_DD_ROM P));
      [|contradiction].
    unfold uint32. rewrite Hofs, Z.mod_small by lia. reflexivity. }
  split; [assumption|]. rewrite Hp. unfold within.
  cbn [buffer_ptr buffer_size]. change 0x2000000 with (2 ^ 25) in *. lia.
Qed.

Lemma dd_window_offset_witness :
  0 <= 0x06400000 < 2 ^ 32 /\
  MM_RDRAM_REGS example_platform <= 0x06400000 /\
  0x06400000 < MM_CART_ROM example_platform /\
  Z.land 0x06400000 0xfe000000 = MM_DD_ROM example_platform /\
  mem_base_u32 example_platform example_base 0x06400000
    = ddrom example_base + 0x06400000 mod 0x2000000.
Proof.
  split; [lia|]. split; [cbn; lia|]. split; [cbn; lia|].
  split; [reflexivity|].
  apply (dd_window_offset example_platform example_base 0x06400000);
    [lia | cbn; lia | cbn; lia | reflexivity].
Defined.

(** X17. The two RDRAM windows do not alias.  An address of the first
    window (from the RDRAM base up to the register boundary) resolves
    below [rdram + MM_RDRAM_REGS]; an address that reaches the last test
    and lies at or above the second RDRAM base resolves at or above it,
    the second base itself landing exactly on [rdram + MM_RDRAM_REGS].  So
    no two addresses of different windows share a byte of the buffer. *)
Theorem rdram_windows_do_not_alias (P : platform) (mb : MemoryBase)
    (a1 a2 : Z) :
  0 <= MM_RDRAM_DRAM P <= a1 ->
  a1 < MM_RDRAM_REGS P ->
  0 <= a2 < 2 ^ 32 ->
  MM_RDRAM_REGS P <= a2 ->
  a2 < MM_CART_ROM P ->
  Z.land a2 0xfe000000 <> MM_DD_ROM P ->
  Z.land a2 0xffffe000 <> MM_RSP_MEM P ->
  MM_RDRAM_DRAM2 P <= a2 ->
  a2 - MM_RDRAM_DRAM2 P + MM_RDRAM_REGS P < 2 ^ 32 ->
  mem_base_u32 P mb a1 = rdram mb + (a1 - MM_RDRAM_DRAM P) /\
  mem_base_u32 P mb a2
    = rdram mb + MM_RDRAM_REGS P + (a2 - MM_RDRAM_DRAM2 P) /\
  mem_base_u32 P mb a1 < rdram mb + MM_RDRAM_REGS P <= mem_base_u32 P mb a2.
Proof.
  intros H1 H1r H2 H2r H2c H2d H2s H2w H2o.
  assert (Hp1 : mem_base_u32 P mb a1 = rdram mb + (a1 - MM_RDRAM_DRAM P)).
  { unfold mem_base_u32.
    destruct (Z.ltb_spec a1 (MM_RDRAM_REGS P)); [|lia].
    unfold uint32. rewrite Z.mod_small by lia. reflexivity. }
  assert (Hp2 : mem_base_u32 P mb a2
                = rdram mb + MM_RDRAM_REGS P + (a2 - MM_RDRAM_DRAM2 P)).
  { unfold mem_base_u32.
    destruct (Z.ltb_spec a2 (MM_RDRAM_REGS P)); [lia|].
    destruct (Z.geb_spec a2 (MM_CART_ROM P)); [lia|].
    destruct (Z.eqb_spec (Z.land a2 0xfe000000) (MM_DD_ROM P));
      [contradiction|].
    destruct (Z.eqb_spec (Z.land a2 0xffffe000) (MM_RSP_MEM P));
      [contradiction|].
    destruct (Z.geb_spec a2 (MM_RDRAM_DRAM2 P)); [|lia].
    unfold uint32. rewrite Z.mod_small by lia. lia. }
  rewrite Hp1, Hp2. repeat split; lia.
Qed.

Lemma rdram_windows_do_not_alias_witness :
  0 <= MM_RDRAM_DRAM example_platform <= 0x03effffc /\
  0x03effffc < MM_RDRAM_REGS example_platform /\
  0 <= 0x08000000 < 2 ^ 32 /\
  MM_RDRAM_REGS example_platform <= 0x08000000 /\
  0x08000000 < MM_CART_ROM example_platform /\
  Z.land 0x08000000 0xfe000000 <> MM_DD_ROM example_platform /\
  Z.land 0x08000000 0xffffe000 <> MM_RSP_MEM example_platform /\
  MM_RDRAM_DRAM2 example_platform <= 0x08000000 /\
  0x08000000 - MM_RDRAM_DRAM2 example_platform
    + MM_RDRAM_REGS example_platform < 2 ^ 32 /\
  mem_base_u32 example_platform example_base 0x03effffc
    < rdram example_base + MM_RDRAM_REGS example_platform
    <= mem_base_u32 example_platform example_base 0x08000000.
Proof.
  split; [cbn; lia|]. split; [cbn; lia|]. split; [lia|].
  split; [cbn; lia|]. split; [cbn; lia|]. split; [discriminate|].
  split; [discriminate|]. split; [cbn; lia|]. split; [cbn; lia|].
  apply (rdram_windows_do_not_alias example_platform example_base
           0x03effffc 0x08000000);
    [cbn; lia | cbn; lia | lia | cbn; lia | cbn; lia | discriminate
    | discriminate | cbn; lia | cbn; lia].
Defined.

(** X18. The exported RDRAM base is the resolver's pointer for the first
    RDRAM address, and later allocation failures do not disturb it.  After
    [init_mem_base], [Memory_GetBaseAddress] is the pointer the host
    granted to the first request, or NULL when that request was refused
    or unanswered, whatever happened to the four later requests; and on a
    platform whose RDRAM base lies below the register boundary,
    [mem_base_u32] at the RDRAM base returns the same pointer. *)
Theorem Memory_GetBaseAddress_after_init (P : platform) (mb : MemoryBase)
    (h : host) :
  MM_RDRAM_DRAM P < MM_RDRAM_REGS P ->
  Memory_GetBaseAddress (snd (fst (init_mem_base P mb h)))
    = match answers h with
      | Some p :: _ => p
      | _ => 0
      end /\
  mem_base_u32 P (snd (fst (init_mem_base P mb h))) (MM_RDRAM_DRAM P)
    = Memory_GetBaseAddress (snd (fst (init_mem_base P mb h))).
Proof.
  intros Hlt. split.
  - destruct h as [ans lv rel msgs]. cbn [answers].
    destruct ans as [|[p1|] ans];
      [ | destruct ans as [|[p2|] ans];
          [ | destruct ans as [|[p3|] ans];
              [ | destruct ans as [|[p4|] ans];
                  [ | destruct ans as [|[p5|] ans] | ] | ] | ] | ];
      reflexivity.
  - unfold mem_base_u32, Memory_GetBaseAddress.
    destruct (Z.ltb_spec (MM_RDRAM_DRAM P) (MM_RDRAM_REGS P)); [|lia].
    rewrite Z.sub_diag. unfold uint32. rewrite Z.mod_0_l by lia. lia.
Qed.

Lemma Memory_GetBaseAddress_after_init_witness :
  MM_RDRAM_DRAM example_platform < MM_RDRAM_REGS example_platform /\
  Memory_GetBaseAddress
    (snd (fst (init_mem_base example_platform null_base fourth_fails)))
  = 0x10000.
Proof.
  split; [cbn; lia|].
  apply (Memory_GetBaseAddress_after_init example_platform null_base
           fourth_fails).
  cbn; lia.
Defined.
